(** * Django_API_Rest: the Spotify views of [api_rest/views.py]

    A shallow embedding of the view functions of the service (the OAuth
    redirect/callback round trip, the polling wait for the token, the
    track/artist look-ups and [add_preferences]) together with the [User]
    model of [api_rest/models.py], and the properties the specification
    states about them.

    Conventions.
    - Values decoded from JSON are of type [json]; Python objects the views
      build themselves (which may embed a DRF [Response]) are of type
      [pyval].
    - Every view runs in the monad [M]: a state (the process-global
      [spotify_tokens], the [User] table, the clock, the log of effects)
      threaded through a computation that returns, raises or, for the
      polling loop only, exhausts its fuel.
    - Everything the process cannot decide (the environment variables, what
      the third-party API answers, how long a [time.sleep] really lasts,
      which callback request is served meanwhile) is read from an [Env]. *)

From Stdlib Require Import ZArith QArith Lqa String Ascii List Bool Lia.
From stdpp Require Import base option list strings gmap.

Import ListNotations.
Set Warnings "-register-all".
Local Open Scope string_scope.
Local Open Scope Z_scope.

(** ** Python values *)

Module Py.

(** What [response.json()] can produce, and what is kept in
    [spotify_tokens].  A dict is the list of its items in insertion order,
    each key once.  Numbers are integers: the views copy them, they never
    compute with them. *)
Inductive json : Type :=
| JNull
| JBool (b : bool)
| JInt (n : Z)
| JStr (s : string)
| JList (xs : list json)
| JDict (kvs : list (string * json)).

(** Python objects built by the views.  [PResponse data status] is
    [rest_framework.response.Response(data, status=status)]; it is an
    ordinary object: neither JSON nor an exception. *)
Inductive pyval : Type :=
| PNone
| PBool (b : bool)
| PInt (n : Z)
| PStr (s : string)
| PList (xs : list pyval)
| PDict (kvs : list (string * pyval))
| PResponse (data : pyval) (status : Z).

Fixpoint of_json (j : json) : pyval :=
  match j with
  | JNull => PNone
  | JBool b => PBool b
  | JInt n => PInt n
  | JStr s => PStr s
  | JList xs => PList (map of_json xs)
  | JDict kvs => PDict (map (fun kv => (fst kv, of_json (snd kv))) kvs)
  end.

(** Exceptions the modelled code can raise. *)
Inductive exn : Type :=
| KeyError
| IndexError
| TypeError
| AttributeError
| DoesNotExist
| JSONDecodeError.

(** Result of running a piece of Python. *)
Inductive outcome (A : Type) : Type :=
| Ret (a : A)
| Raise (e : exn)
| OutOfFuel.
Arguments Ret {A} a.
Arguments Raise {A} e.
Arguments OutOfFuel {A}.

(** Look-up in a dict literal / decoded object: first binding of the key. *)
Fixpoint dict_lookup {V : Type} (k : string) (d : list (string * V)) : option V :=
  match d with
  | [] => None
  | (k', v) :: d' => if String.eqb k k' then Some v else dict_lookup k d'
  end.

(** [d.get(k)] on a dict of Python values: [None] when the key is absent. *)
Definition pydict_get (k : string) (d : list (string * pyval)) : pyval :=
  match dict_lookup k d with
  | Some v => v
  | None => PNone
  end.

(** [v[k]] with a string key. *)
Definition getitem (v : json) (k : string) : outcome json :=
  match v with
  | JDict d =>
      match dict_lookup k d with
      | Some x => Ret x
      | None => Raise KeyError
      end
  | _ => Raise TypeError
  end.

(** [v.get(k)]: only dicts have the method. *)
Definition get_method (v : json) (k : string) : outcome json :=
  match v with
  | JDict d =>
      match dict_lookup k d with
      | Some x => Ret x
      | None => Ret JNull
      end
  | _ => Raise AttributeError
  end.

(** [v[0]].  Subscripting a non-empty string yields a one-character string
    (characters are bytes here); a dict has no integer keys. *)
Definition getitem0 (v : json) : outcome json :=
  match v with
  | JList [] => Raise IndexError
  | JList (x :: _) => Ret x
  | JStr EmptyString => Raise IndexError
  | JStr (String c _) => Ret (JStr (String c EmptyString))
  | JDict _ => Raise KeyError
  | _ => Raise TypeError
  end.

Fixpoint chars (s : string) : list json :=
  match s with
  | EmptyString => []
  | String c s' => JStr (String c EmptyString) :: chars s'
  end.

(** [for x in v]: lists give their elements, dicts their keys, strings their
    characters; nothing else is iterable. *)
Definition iterate (v : json) : outcome (list json) :=
  match v with
  | JList xs => Ret xs
  | JDict kvs => Ret (map (fun kv => JStr (fst kv)) kvs)
  | JStr s => Ret (chars s)
  | _ => Raise TypeError
  end.

(** [json.dumps] with the default encoder accepts exactly the values made of
    [None], booleans, numbers, strings, lists and string-keyed dicts. *)
Fixpoint json_serializable (v : pyval) : bool :=
  match v with
  | PNone | PBool _ | PInt _ | PStr _ => true
  | PList xs => forallb json_serializable xs
  | PDict kvs => forallb (fun kv => json_serializable (snd kv)) kvs
  | PResponse _ _ => false
  end.

(** [xs.append(x)]: only lists have the method. *)
Definition append (xs x : pyval) : outcome pyval :=
  match xs with
  | PList l => Ret (PList (l ++ [x]))
  | _ => Raise AttributeError
  end.

(** [raise v]: Python refuses to raise an object that is not an exception
    ("exceptions must derive from BaseException") and raises [TypeError]
    in its place.  No [pyval] is an exception object. *)
Definition raise_object {A : Type} (v : pyval) : outcome A := Raise TypeError.

End Py.
Import Py.

(** ** The world around the views *)

Inductive http_method : Type := HttpGet | HttpPost.

(** An outgoing [requests.get]/[requests.post] call: [rq_payload] is the
    [params=] of a GET and the [data=] of a POST. *)
Record HttpRequest : Type := mkHttpRequest {
  rq_method : http_method;
  rq_url : string;
  rq_headers : list (string * string);
  rq_payload : list (string * pyval) }.

(** What [requests] hands back: [body = None] when the body is not JSON, so
    that [response.json()] raises. *)
Record HttpResponse : Type := mkHttpResponse {
  status_code : Z;
  body : option json }.

(** An incoming Django request: its query string, in order. *)
Record Request : Type := mkRequest {
  GET : list (string * string) }.

(** [models.py]: the [User] row. *)
Record User : Type := mkUser {
  name : string;
  email : string;
  preferences : pyval }.

(** Effects a view performs, in the order it performs them. *)
Inductive Event : Type :=
| EvBrowserOpen (url : pyval)
| EvTime
| EvSleep (secs : Q)
| EvHttp (rq : HttpRequest).

Record Env : Type := mkEnv {
  (** [os.environ] after [load_dotenv()] *)
  environ : list (string * string);
  (** answer of the third party to the [k]-th outgoing request *)
  upstream : nat -> HttpRequest -> HttpResponse;
  (** by how much the [k]-th [time.sleep] overshoots the requested time *)
  oversleep : nat -> Q;
  (** callback request served by another thread during the [k]-th sleep *)
  arrival : nat -> option Request;
  (** [str(v)] for objects other than [None], booleans and strings *)
  str_other : pyval -> string }.

Record State : Type := mkState {
  (** [views.py:26], the process-global token store *)
  spotify_tokens : list (string * json);
  (** the table behind [User.objects], by primary key *)
  users : gmap Z User;
  (** [time.time()], in seconds *)
  clock : Q;
  (** number of [time.sleep] calls so far *)
  sleeps : nat;
  (** number of outgoing HTTP requests so far *)
  requests : nat;
  (** effects so far, oldest first *)
  log : list Event }.

(** ** The monad of the views *)

Definition M (A : Type) : Type := State -> outcome A * State.

Definition ret {A : Type} (a : A) : M A := fun s => (Ret a, s).

Definition bind {A B : Type} (m : M A) (k : A -> M B) : M B :=
  fun s =>
    match m s with
    | (Ret a, s') => k a s'
    | (Raise e, s') => (Raise e, s')
    | (OutOfFuel, s') => (OutOfFuel, s')
    end.

(** A pure Python expression that may raise. *)
Definition lift {A : Type} (o : outcome A) : M A := fun s => (o, s).

Declare Scope py_scope.
Delimit Scope py_scope with py.
Notation "x <- m ;; k" := (bind m (fun x => k))
  (at level 100, m at next level, right associativity) : py_scope.
Notation "m ;;; k" := (bind m (fun _ => k))
  (at level 100, right associativity) : py_scope.
Local Open Scope py_scope.

Definition emit (e : Event) : M unit :=
  fun s => (Ret tt,
            mkState (spotify_tokens s) (users s) (clock s) (sleeps s)
                    (requests s) (log s ++ [e])).

Definition read_tokens : M (list (string * json)) :=
  fun s => (Ret (spotify_tokens s), s).

Definition write_tokens (t : list (string * json)) : M unit :=
  fun s => (Ret tt,
            mkState t (users s) (clock s) (sleeps s) (requests s) (log s)).

(** [mapM]: a list comprehension whose element expression may raise. *)
Fixpoint comprehension {A B : Type} (f : A -> outcome B) (xs : list A)
  : outcome (list B) :=
  match xs with
  | [] => Ret []
  | x :: xs' =>
      match f x with
      | Ret y =>
          match comprehension f xs' with
          | Ret ys => Ret (y :: ys)
          | Raise e => Raise e
          | OutOfFuel => OutOfFuel
          end
      | Raise e => Raise e
      | OutOfFuel => OutOfFuel
      end
  end.

(** Sequencing of pure expressions that may raise. *)
Definition and_then {A B : Type} (o : outcome A) (k : A -> outcome B)
  : outcome B :=
  match o with
  | Ret a => k a
  | Raise e => Raise e
  | OutOfFuel => OutOfFuel
  end.

Notation "x <~ o ;; k" := (and_then o (fun x => k))
  (at level 100, o at next level, right associativity) : py_scope.

(** ** Library calls *)

(** [os.getenv(key, default)] *)
Definition os_getenv (env : Env) (key : string) (default : pyval) : pyval :=
  match dict_lookup key (environ env) with
  | Some v => PStr v
  | None => default
  end.

(** How an f-string renders [{v}]. *)
Definition fstr (env : Env) (v : pyval) : string :=
  match v with
  | PStr s => s
  | PNone => "None"
  | PBool true => "True"
  | PBool false => "False"
  | _ => str_other env v
  end.

(** [QueryDict.get(key)]: the last value given for the key, else [None]. *)
Definition querydict_get (key : string) (q : list (string * string)) : pyval :=
  match dict_lookup key (rev q) with
  | Some v => PStr v
  | None => PNone
  end.

(** [requests.get]/[requests.post]: one outgoing request, answered by the
    environment.  An answer always comes back: a failure of the third
    party is an answer whose status is not 200. *)
Definition http (env : Env) (rq : HttpRequest) : M HttpResponse :=
  fun s => (Ret (upstream env (requests s) rq),
            mkState (spotify_tokens s) (users s) (clock s) (sleeps s)
                    (S (requests s)) (log s ++ [EvHttp rq])).

(** [response.json()] *)
Definition response_json (r : HttpResponse) : outcome json :=
  match body r with
  | Some j => Ret j
  | None => Raise JSONDecodeError
  end.

(** [webbrowser.open(url)] *)
Definition webbrowser_open (url : pyval) : M unit := emit (EvBrowserOpen url).

(** [time.time()] *)
Definition time_time : M Q :=
  fun s => (Ret (clock s),
            mkState (spotify_tokens s) (users s) (clock s) (sleeps s)
                    (requests s) (log s ++ [EvTime])).

(** [User.objects.get(id=user_id)] *)
Definition User_objects_get (user_id : Z) : M User :=
  fun s => match users s !! user_id with
           | Some u => (Ret u, s)
           | None => (Raise DoesNotExist, s)
           end.

(** [user.save()] for a row that exists: every column is written back.
    Django encodes the [JSONField] column with [json.dumps] before the
    UPDATE is issued, and [json.dumps] raises [TypeError] on an object it
    does not know, such as a [Response]; nothing is written then. *)
Definition User_save (user_id : Z) (u : User) : M unit :=
  fun s =>
    if json_serializable (preferences u) then
      (Ret tt,
       mkState (spotify_tokens s) (<[user_id := u]> (users s)) (clock s)
               (sleeps s) (requests s) (log s))
    else (Raise TypeError, s).

(** [models.py:6]: [JSONField(null=True, blank=True, default=list)]. *)
Record JSONField : Type := mkJSONField {
  null : bool;
  blank : bool;
  default_ : pyval }.

Definition User_preferences : JSONField :=
  {| null := true; blank := true; default_ := PList [] |}.

(** What a column of this kind can hold. *)
Definition field_accepts (f : JSONField) (v : pyval) : bool :=
  match v with
  | PNone => null f
  | _ => json_serializable v
  end.

(** [User(name=..., email=...[, preferences=...])]: a field that is not given
    takes the default of its declaration. *)
Definition User_new (name email : string) (prefs : option pyval) : User :=
  {| name := name; email := email;
     preferences := match prefs with
                    | Some p => p
                    | None => default_ User_preferences
                    end |}.

(** ** [views.py] *)

Definition HTTP_200_OK : Z := 200.
Definition HTTP_400_BAD_REQUEST : Z := 400.
Definition HTTP_408_REQUEST_TIMEOUT : Z := 408.

Definition SPOTIFY_AUTH_URL : string := "https://accounts.spotify.com/authorize".
Definition SPOTIFY_TOKEN_URL : string := "https://accounts.spotify.com/api/token".
Definition SPOTIFY_API_URL : string := "https://api.spotify.com/v1/me/top/artists".
Definition SCOPE : string := "user-top-read".

Section Views.

Variable env : Env.

(** [views.py:16-20] *)
Definition SPOTIFY_CLIENT_ID : pyval := os_getenv env "SPOTIFY_CLIENT_ID" PNone.
Definition SPOTIFY_CLIENT_SECRET : pyval :=
  os_getenv env "SPOTIFY_CLIENT_SECRET" PNone.
Definition SPOTIFY_REDIRECT_URI : pyval :=
  os_getenv env "SPOTIFY_REDIRECT_URI" (PStr "http://127.0.0.1:8000/api/callback/").

(** [views.py:34-46] *)
Definition spotify_auth : list (string * pyval) :=
  let auth_url :=
    (SPOTIFY_AUTH_URL ++ "?")
    ++ ("response_type=code&client_id=" ++ fstr env SPOTIFY_CLIENT_ID)
    ++ ("&redirect_uri=" ++ fstr env SPOTIFY_REDIRECT_URI)
    ++ ("&scope=" ++ SCOPE) in
  [("auth_url", PStr auth_url)].

(** The POST of [views.py:71-80]. *)
Definition token_request (code : pyval) : HttpRequest :=
  let headers := [("Content-Type", "application/x-www-form-urlencoded")] in
  let data :=
    [("grant_type", PStr "authorization_code");
     ("code", code);
     ("redirect_uri", SPOTIFY_REDIRECT_URI);
     ("client_id", SPOTIFY_CLIENT_ID);
     ("client_secret", SPOTIFY_CLIENT_SECRET)] in
  mkHttpRequest HttpPost SPOTIFY_TOKEN_URL headers data.

(** [views.py:49-98] *)
Definition callback (request : Request) : M pyval :=
  let code := querydict_get "code" (GET request) in
  response <- http env (token_request code);;
  if status_code response =? 200 then
    token_data <- lift (response_json response);;
    tokens <- lift (access_token <~ getitem token_data "access_token";;
                    refresh_token <~ get_method token_data "refresh_token";;
                    expires_in <~ getitem token_data "expires_in";;
                    Ret [("access_token", access_token);
                         ("refresh_token", refresh_token);
                         ("expires_in", expires_in)]);;
    write_tokens tokens;;;
    stored <- read_tokens;;
    ret (PResponse (of_json (JDict stored)) HTTP_200_OK)
  else
    ret (PResponse (PDict [("error", PStr "Error al obtener el token de acceso.")])
                   HTTP_400_BAD_REQUEST).

(** [time.sleep(secs)]: the clock moves on by [secs] and the overshoot of
    this sleep; a callback request arriving meanwhile is served by another
    thread, whatever it answers or raises there. *)
Definition time_sleep (secs : Q) : M unit :=
  fun s =>
    let k := sleeps s in
    let s1 := mkState (spotify_tokens s) (users s)
                      (clock s + secs + oversleep env k)%Q (S k)
                      (requests s) (log s ++ [EvSleep secs]) in
    match arrival env k with
    | Some rq => (Ret tt, snd (callback rq s1))
    | None => (Ret tt, s1)
    end.

Definition timeout_response : pyval :=
  PResponse
    (PDict [("error",
             PStr "Se agotó el tiempo de espera. No se pudo obtener el token de acceso.")])
    HTTP_408_REQUEST_TIMEOUT.

(** The [while] of [views.py:123-131]: [Some r] when the loop is left by
    its [return r], [None] when its condition becomes false. *)
Fixpoint wait_for_token (fuel : nat) (timeout start_time : Q)
  : M (option pyval) :=
  match fuel with
  | O => fun s => (OutOfFuel, s)
  | S fuel' =>
      tokens <- read_tokens;;
      match tokens with
      | [] =>
          now <- time_time;;
          if negb (Qle_bool (now - start_time) timeout) then
            ret (Some timeout_response)
          else
            time_sleep 1;;;
            wait_for_token fuel' timeout start_time
      | _ :: _ => ret None
      end
  end.

(** [views.py:133-135] *)
Definition stored_access_token : M pyval :=
  tokens <- read_tokens;;
  access_token <- lift (getitem (JDict tokens) "access_token");;
  ret (of_json access_token).

(** [views.py:101-135] *)
Definition get_spotify_token (fuel : nat) : M pyval :=
  tokens <- read_tokens;;
  match tokens with
  | [] =>
      let auth_url := pydict_get "auth_url" spotify_auth in
      webbrowser_open auth_url;;;
      let timeout := 120%Q in
      start_time <- time_time;;
      left <- wait_for_token fuel timeout start_time;;
      match left with
      | Some r => ret r
      | None => stored_access_token
      end
  | _ :: _ => stored_access_token
  end.

(** The dict display of [views.py:163-169]. *)
Definition track_info_entry (track : json) : outcome pyval :=
  track_name <~ getitem track "name";;
  artist <~ (artists <~ getitem track "artists";;
             first <~ getitem0 artists;;
             getitem first "name");;
  album <~ (album <~ getitem track "album";; getitem album "name");;
  release_date <~ (album <~ getitem track "album";;
                   getitem album "release_date");;
  album_type <~ (album <~ getitem track "album";; getitem album "album_type");;
  Ret (PDict [("track_name", of_json track_name);
              ("artist", of_json artist);
              ("album", of_json album);
              ("release_date", of_json release_date);
              ("album_type", of_json album_type)]).

Definition search_request (access_token : pyval) (track artist : string)
  : HttpRequest :=
  let url := "https://api.spotify.com/v1/search" in
  let headers := [("Authorization", "Bearer " ++ fstr env access_token)] in
  let params := [("q", PStr (track ++ " " ++ artist));
                 ("type", PStr "track");
                 ("limit", PInt 1)] in
  mkHttpRequest HttpGet url headers params.

(** [views.py:138-177] *)
Definition get_track_info (access_token : pyval) (track artist : string)
  : M pyval :=
  response <- http env (search_request access_token track artist);;
  if status_code response =? 200 then
    search_data <- lift (response_json response);;
    tracks <- lift (found <~ getitem search_data "tracks";;
                    items <~ getitem found "items";;
                    items <~ iterate items;;
                    comprehension track_info_entry items);;
    ret (PList tracks)
  else
    ret (PResponse (PDict [("error", PStr "Error al obtener las canciones.")])
                   HTTP_400_BAD_REQUEST).

(** The response of [views.py:207-217]. *)
Definition preferences_added (user : User) : pyval :=
  PResponse
    (PDict [("message", PStr "Preferencias agregadas correctamente");
            ("Usuario actualizado",
             PDict [("name", PStr (name user));
                    ("email", PStr (email user));
                    ("preferences", preferences user)])])
    HTTP_200_OK.

(** [views.py:195-205]: the [user] object as it is when [user.save()] is
    reached. *)
Definition add_preferences_object (fuel : nat) (user_id : Z)
    (track artist : string) : M User :=
  user <- User_objects_get user_id;;
  access_token <- get_spotify_token fuel;;
  track_info <- get_track_info access_token track artist;;
  appended <- lift (append (preferences user)
                           (PDict [("track_info", track_info)]));;
  ret (mkUser (name user) (email user) appended).

(** [views.py:180-217] *)
Definition add_preferences (fuel : nat) (request : Request) (user_id : Z)
    (track artist : string) : M pyval :=
  user <- add_preferences_object fuel user_id track artist;;
  User_save user_id user;;;
  ret (preferences_added user).

Definition top_request (url : string) (access_token : pyval) (limit : Z)
    (time_range : string) : HttpRequest :=
  let headers := [("Authorization", "Bearer " ++ fstr env access_token)] in
  let params := [("limit", PInt limit); ("time_range", PStr time_range)] in
  mkHttpRequest HttpGet url headers params.

(** The dict display of [views.py:246-249]. *)
Definition top_artist_entry (artist : json) : outcome pyval :=
  name <~ getitem artist "name";;
  genres <~ getitem artist "genres";;
  Ret (PDict [("name", of_json name); ("genres", of_json genres)]).

(** [views.py:220-257] *)
Definition get_top_artists (access_token : pyval) (limit : Z)
    (time_range : string) : M pyval :=
  response <- http env (top_request SPOTIFY_API_URL access_token limit time_range);;
  if status_code response =? 200 then
    artists_data <- lift (response_json response);;
    artists <- lift (items <~ getitem artists_data "items";;
                     items <~ iterate items;;
                     comprehension top_artist_entry items);;
    ret (PDict [("top_artists", PList artists)])
  else
    ret (PResponse (PDict [("error", PStr "Error al obtener los artistas")])
                   HTTP_400_BAD_REQUEST).

(** The dict display of [views.py:286-290]. *)
Definition top_track_entry (track : json) : outcome pyval :=
  track_name <~ getitem track "name";;
  artist <~ (artists <~ getitem track "artists";;
             first <~ getitem0 artists;;
             getitem first "name");;
  album <~ (album <~ getitem track "album";; getitem album "name");;
  Ret (PDict [("track_name", of_json track_name);
              ("artist", of_json artist);
              ("album", of_json album)]).

(** [views.py:260-298]; the last statement is a [raise], not a [return]. *)
Definition get_top_tracks (access_token : pyval) (limit : Z)
    (time_range : string) : M pyval :=
  let url := "https://api.spotify.com/v1/me/top/tracks" in
  response <- http env (top_request url access_token limit time_range);;
  if status_code response =? 200 then
    tracks_data <- lift (response_json response);;
    tracks <- lift (items <~ getitem tracks_data "items";;
                    items <~ iterate items;;
                    comprehension top_track_entry items);;
    ret (PDict [("top_tracks", PList tracks)])
  else
    lift (raise_object
            (PResponse (PDict [("error", PStr "Error al obtener las canciones")])
                       HTTP_400_BAD_REQUEST)).

(** [views.py:301-319]; both helpers are called with their default
    [limit=10] and [time_range="medium_term"]. *)
Definition get_user_info (fuel : nat) (request : Request) : M pyval :=
  access_token <- get_spotify_token fuel;;
  top_tracks <- get_top_tracks access_token 10 "medium_term";;
  top_artists <- get_top_artists access_token 10 "medium_term";;
  ret (PResponse (PDict [("Canciones más escuchadas", top_tracks);
                         ("Artistas más escuchados", top_artists)])
                 HTTP_200_OK).

End Views.

(** ** Sample worlds

    A third party that honours its schema ([spotify]), one that refuses
    the top-artists request ([spotify_no_artists]), one that refuses every
    request ([spotify_down]), and a few states of the process. *)

Module Sample.

Definition token_grant : list (string * json) :=
  [("access_token", JStr "BQD-token");
   ("token_type", JStr "Bearer");
   ("expires_in", JInt 3600);
   ("refresh_token", JStr "AQC-refresh");
   ("scope", JStr "user-top-read")].

Definition token_body : json := JDict token_grant.

Definition track_item : json :=
  JDict [("name", JStr "Yesterday");
         ("artists", JList [JDict [("name", JStr "The Beatles")];
                            JDict [("name", JStr "George Martin")]]);
         ("album", JDict [("name", JStr "Help!");
                          ("release_date", JStr "1965-08-06");
                          ("album_type", JStr "album")])].

Definition track_item2 : json :=
  JDict [("name", JStr "So What");
         ("artists", JList [JDict [("name", JStr "Miles Davis")]]);
         ("album", JDict [("name", JStr "Kind of Blue");
                          ("release_date", JStr "1959-08-17");
                          ("album_type", JStr "album")])].

Definition artist_item : json :=
  JDict [("name", JStr "Miles Davis");
         ("genres", JList [JStr "jazz"; JStr "cool jazz"])].

Definition answer (rq : HttpRequest) : HttpResponse :=
  if String.eqb (rq_url rq) SPOTIFY_TOKEN_URL then
    mkHttpResponse 200 (Some token_body)
  else if String.eqb (rq_url rq) "https://api.spotify.com/v1/search" then
    mkHttpResponse 200 (Some (JDict [("tracks", JDict [("items", JList [track_item])])]))
  else if String.eqb (rq_url rq) SPOTIFY_API_URL then
    mkHttpResponse 200 (Some (JDict [("items", JList [artist_item])]))
  else
    mkHttpResponse 200 (Some (JDict [("items", JList [track_item2; track_item])])).

Definition environment : list (string * string) :=
  [("SPOTIFY_CLIENT_ID", "abc123"); ("SPOTIFY_CLIENT_SECRET", "s3cr3t")].

Definition authorized : Request := mkRequest [("code", "AQB-code")].

(** The user grants access while the third sleep is in progress. *)
Definition spotify : Env :=
  {| environ := environment;
     upstream := fun _ => answer;
     oversleep := fun _ => 0%Q;
     arrival := fun k => if Nat.eqb k 2 then Some authorized else None;
     str_other := fun _ => "<object>" |}.

(** The top-artists request alone is refused. *)
Definition answer_no_artists (rq : HttpRequest) : HttpResponse :=
  if String.eqb (rq_url rq) SPOTIFY_API_URL then
    mkHttpResponse 403 (Some (JDict [("error", JStr "forbidden")]))
  else answer rq.

Definition spotify_no_artists : Env :=
  {| environ := environment;
     upstream := fun _ => answer_no_artists;
     oversleep := fun _ => 0%Q;
     arrival := fun _ => None;
     str_other := fun _ => "<object>" |}.

(** Every request is refused and nobody ever grants access. *)
Definition spotify_down : Env :=
  {| environ := environment;
     upstream := fun _ _ => mkHttpResponse 401 (Some (JDict [("error", JStr "invalid")]));
     oversleep := fun _ => 0%Q;
     arrival := fun _ => None;
     str_other := fun _ => "<object>" |}.

(** A track the third party lists without an artist. *)
Definition track_no_artist : json :=
  JDict [("name", JStr "Station ident");
         ("artists", JList []);
         ("album", JDict [("name", JStr "Jingles");
                          ("release_date", JStr "2001");
                          ("album_type", JStr "compilation")])].

(** Every request is answered with status 200, but not with what the
    views expect: the token POST with an object that grants nothing, the
    look-ups with a list whose second item has no artist. *)
Definition answer_off_schema (rq : HttpRequest) : HttpResponse :=
  if String.eqb (rq_url rq) SPOTIFY_TOKEN_URL then
    mkHttpResponse 200 (Some (JDict [("token_type", JStr "Bearer")]))
  else
    mkHttpResponse 200
      (Some (JDict [("tracks",
                     JDict [("items", JList [track_item; track_no_artist])]);
                    ("items", JList [track_item; track_no_artist])])).

Definition spotify_off_schema : Env :=
  {| environ := environment;
     upstream := fun _ => answer_off_schema;
     oversleep := fun _ => 0%Q;
     arrival := fun _ => None;
     str_other := fun _ => "<object>" |}.

Definition ana : User := mkUser "Ana" "ana@example.org" (PList []).
Definition luis : User := mkUser "Luis" "luis@example.org" PNone.

Definition table : gmap Z User := <[1 := ana]> (<[2 := luis]> ∅).

(** A fresh process: nothing stored yet. *)
Definition fresh : State :=
  {| spotify_tokens := []; users := table; clock := 1000%Q;
     sleeps := 0; requests := 0; log := [] |}.

(** A process that has completed the OAuth round trip. *)
Definition logged_in : State :=
  {| spotify_tokens := [("access_token", JStr "BQD-token");
                        ("refresh_token", JStr "AQC-refresh");
                        ("expires_in", JInt 3600)];
     users := table; clock := 1000%Q;
     sleeps := 0; requests := 0; log := [] |}.

End Sample.

(** ** Predicates used in the statements *)

(** The token store is as the module leaves it: the initial [{}] or a dict
    that has an access token. *)
Definition store_ok (tokens : list (string * json)) : Prop :=
  tokens = [] \/ exists a, dict_lookup "access_token" tokens = Some a.

(** A sleep never returns early (Python 3.5 and later). *)
Definition sleeps_in_full (env : Env) : Prop :=
  forall k, (0 <= oversleep env k)%Q.

(** What the polling wait may add to the log: clock reads, one-second
    sleeps, and the token POST of a callback served meanwhile. *)
Definition is_poll_event (e : Event) : Prop :=
  match e with
  | EvTime => True
  | EvSleep secs => secs = 1%Q
  | EvHttp rq => rq_method rq = HttpPost /\ rq_url rq = SPOTIFY_TOKEN_URL
  | EvBrowserOpen _ => False
  end.

(** The durations asked of [time.sleep], in order. *)
Fixpoint sleep_requests (l : list Event) : list Q :=
  match l with
  | [] => []
  | EvSleep secs :: l' => secs :: sleep_requests l'
  | _ :: l' => sleep_requests l'
  end.

(** The shape the third party documents for a track object, as far as the
    views read it. *)
Definition top_track_fields (item name artist album : json) : Prop :=
  exists first rest the_album,
    getitem item "name" = Ret name /\
    getitem item "artists" = Ret (JList (first :: rest)) /\
    getitem first "name" = Ret artist /\
    getitem item "album" = Ret the_album /\
    getitem the_album "name" = Ret album.

Definition track_fields (item name artist album release_date album_type : json)
  : Prop :=
  top_track_fields item name artist album /\
  exists the_album,
    getitem item "album" = Ret the_album /\
    getitem the_album "release_date" = Ret release_date /\
    getitem the_album "album_type" = Ret album_type.

Definition artist_fields (item name genres : json) : Prop :=
  getitem item "name" = Ret name /\ getitem item "genres" = Ret genres.

Definition track_ok (item : json) : Prop :=
  exists name artist album release_date album_type,
    track_fields item name artist album release_date album_type.

Definition top_track_ok (item : json) : Prop :=
  exists name artist album, top_track_fields item name artist album.

Definition artist_ok (item : json) : Prop :=
  exists name genres, artist_fields item name genres.

(** A 200 answer to a track search, as documented: an object whose
    [tracks.items] is a list of track objects. *)
Definition search_body_ok (r : HttpResponse) : Prop :=
  exists search_data found items,
    body r = Some search_data /\
    getitem search_data "tracks" = Ret found /\
    getitem found "items" = Ret (JList items) /\
    Forall track_ok items.

(** The third party keeps to that schema whenever it answers a search
    with 200. *)
Definition search_honours_schema (env : Env) : Prop :=
  forall k access_token track artist,
    let r := upstream env k (search_request env access_token track artist) in
    status_code r = 200 -> search_body_ok r.

(** The entries the three look-ups build. *)
Definition track_info_dict (name artist album release_date album_type : json)
  : pyval :=
  PDict [("track_name", of_json name);
         ("artist", of_json artist);
         ("album", of_json album);
         ("release_date", of_json release_date);
         ("album_type", of_json album_type)].

Definition top_track_dict (name artist album : json) : pyval :=
  PDict [("track_name", of_json name);
         ("artist", of_json artist);
         ("album", of_json album)].

Definition top_artist_dict (name genres : json) : pyval :=
  PDict [("name", of_json name); ("genres", of_json genres)].

(** Cutting a query string at a separator. *)
Fixpoint split_on (sep : ascii) (s : string) : list string :=
  match s with
  | EmptyString => [EmptyString]
  | String c s' =>
      if Ascii.eqb c sep then EmptyString :: split_on sep s'
      else match split_on sep s' with
           | [] => [String c EmptyString]
           | piece :: pieces => String c piece :: pieces
           end
  end.

Fixpoint occurs (sep : ascii) (s : string) : bool :=
  match s with
  | EmptyString => false
  | String c s' => Ascii.eqb c sep || occurs sep s'
  end.


(** The status-200 half of the callback read for every answer: whatever
    body comes with status 200, a response with status 200 is returned. *)
Definition callback_answers_every_200 (env : Env) (request : Request)
    (s : State) : Prop :=
  status_code (upstream env (requests s)
                 (token_request env (querydict_get "code" (GET request))))
  = 200 ->
  exists data, fst (callback env request s) = Ret (PResponse data 200).

(** The reshaping read for every status-200 answer: whatever body comes
    with status 200, each look-up returns a list. *)
Definition reshapes_every_200 (env : Env) (access_token : pyval) (s : State)
  : Prop :=
  (forall track artist,
     status_code (upstream env (requests s)
                    (search_request env access_token track artist)) = 200 ->
     exists out,
       fst (get_track_info env access_token track artist s) = Ret (PList out)) /\
  (forall limit time_range,
     status_code (upstream env (requests s)
                    (top_request env "https://api.spotify.com/v1/me/top/tracks"
                                 access_token limit time_range)) = 200 ->
     exists out,
       fst (get_top_tracks env access_token limit time_range s)
       = Ret (PDict [("top_tracks", PList out)])) /\
  (forall limit time_range,
     status_code (upstream env (requests s)
                    (top_request env SPOTIFY_API_URL access_token limit
                                 time_range)) = 200 ->
     exists out,
       fst (get_top_artists env access_token limit time_range s)
       = Ret (PDict [("top_artists", PList out)])).

(** ** [urls.py]

    The three [path(...)] entries of [urlpatterns], matched in order before
    the URLs of the router.  A route is matched segment by segment against
    the (already percent-decoded) path below the prefix this URLconf is
    included at; the routes of this file only use literal segments and the
    converters [<int:name>] and [<str:name>], one per segment. *)

Inductive converter : Type := IntConverter | StrConverter.

Inductive route_part : Type :=
| Literal (text : string)
| Capture (conv : converter) (name : string).

Inductive url_arg : Type :=
| ArgInt (n : Z)
| ArgStr (s : string).

Fixpoint strip_prefix (p s : string) : option string :=
  match p, s with
  | EmptyString, _ => Some s
  | String a p', String b s' =>
      if Ascii.eqb a b then strip_prefix p' s' else None
  | String _ _, EmptyString => None
  end.

Fixpoint strip_last (c : ascii) (s : string) : option string :=
  match s with
  | EmptyString => None
  | String a EmptyString => if Ascii.eqb a c then Some EmptyString else None
  | String a s' =>
      match strip_last c s' with
      | Some body => Some (String a body)
      | None => None
      end
  end.

Definition route_part_of (piece : string) : route_part :=
  match strip_prefix "<int:" piece with
  | Some rest =>
      match strip_last ">" rest with
      | Some name => Capture IntConverter name
      | None => Literal piece
      end
  | None =>
      match strip_prefix "<str:" piece with
      | Some rest =>
          match strip_last ">" rest with
          | Some name => Capture StrConverter name
          | None => Literal piece
          end
      | None => Literal piece
      end
  end.

Definition route_parts (route : string) : list route_part :=
  map route_part_of (split_on "/" route).

Definition digit_value (c : ascii) : option Z :=
  let n := Z.of_nat (nat_of_ascii c) in
  if (48 <=? n) && (n <=? 57) then Some (n - 48) else None.

Fixpoint int_of_digits (acc : Z) (s : string) : option Z :=
  match s with
  | EmptyString => Some acc
  | String c s' =>
      match digit_value c with
      | Some d => int_of_digits (10 * acc + d) s'
      | None => None
      end
  end.

(** [sys.get_int_max_str_digits()], as Python sets it by default: [int]
    raises [ValueError] on a text of more digits, leading zeros counted. *)
Definition int_max_str_digits : Z := 4300.

(** [IntConverter]: the text must match [[0-9]+]; its value is [int(text)],
    and a [ValueError] of the conversion means the route does not match. *)
Definition int_converter (text : string) : option Z :=
  match text with
  | EmptyString => None
  | String _ _ =>
      if Z.of_nat (String.length text) <=? int_max_str_digits
      then int_of_digits 0 text
      else None
  end.

(** [StringConverter]: the text must match [[^/]+]. *)
Definition str_converter (text : string) : option string :=
  match text with
  | EmptyString => None
  | String _ _ => if occurs "/" text then None else Some text
  end.

Definition match_part (p : route_part) (piece : string)
  : option (list (string * url_arg)) :=
  match p with
  | Literal text => if String.eqb text piece then Some [] else None
  | Capture IntConverter name =>
      match int_converter piece with
      | Some n => Some [(name, ArgInt n)]
      | None => None
      end
  | Capture StrConverter name =>
      match str_converter piece with
      | Some v => Some [(name, ArgStr v)]
      | None => None
      end
  end.

Fixpoint match_parts (ps : list route_part) (pieces : list string)
  : option (list (string * url_arg)) :=
  match ps, pieces with
  | [], [] => Some []
  | p :: ps', piece :: pieces' =>
      match match_part p piece with
      | Some kwargs =>
          match match_parts ps' pieces' with
          | Some more => Some (kwargs ++ more)%list
          | None => None
          end
      | None => None
      end
  | _, _ => None
  end.

Inductive view_name : Type :=
| view_add_preferences
| view_callback
| view_get_user_info.

(** [urls.py:13-21] *)
Definition urlpatterns : list (string * view_name) :=
  [("users/add-preferences/<int:user_id>/<str:track>/<str:artist>/",
    view_add_preferences);
   ("callback/", view_callback);
   ("users/get-user-info/", view_get_user_info)].

(** The routes are compiled once, when the URLconf is loaded. *)
Definition compile (patterns : list (string * view_name))
  : list (list route_part * view_name) :=
  map (fun entry => (route_parts (fst entry), snd entry)) patterns.

Definition compiled_urlpatterns : list (list route_part * view_name) :=
  Eval vm_compute in compile urlpatterns.

(** The resolver: the first pattern that matches. *)
Fixpoint resolve (patterns : list (list route_part * view_name))
    (path : string) : option (view_name * list (string * url_arg)) :=
  match patterns with
  | [] => None
  | (parts, view) :: patterns' =>
      match match_parts parts (split_on "/" path) with
      | Some kwargs => Some (view, kwargs)
      | None => resolve patterns' path
      end
  end.

(** [urls.py:23]: the URLs of the router come after the three paths, so
    they are tried only when none of these matches.  What the router
    matches is left open. *)
Definition resolve_urls {R : Type} (router_urls : string -> option R)
    (path : string) : option (view_name * list (string * url_arg) + R) :=
  match resolve compiled_urlpatterns path with
  | Some hit => Some (inl hit)
  | None =>
      match router_urls path with
      | Some r => Some (inr r)
      | None => None
      end
  end.

(** A call of one of the three function views, with its arguments. *)
Inductive Call : Type :=
| Call_callback (request : Request)
| Call_add_preferences (request : Request) (user_id : Z) (track artist : string)
| Call_get_user_info (request : Request).

Definition run_call (env : Env) (fuel : nat) (c : Call) : M pyval :=
  match c with
  | Call_callback request => callback env request
  | Call_add_preferences request user_id track artist =>
      add_preferences env fuel request user_id track artist
  | Call_get_user_info request => get_user_info env fuel request
  end.

(** Calls made one after the other; what each returned or raised is of no
    consequence for the next. *)
Fixpoint run_calls (env : Env) (fuel : nat) (calls : list Call) (s : State)
  : State :=
  match calls with
  | [] => s
  | c :: calls' => run_calls env fuel calls' (snd (run_call env fuel c s))
  end.

(** The keyword arguments of the route, handed to the view: the call
    [view(request, **kwargs)].  [None] stands for a call that lacks an
    argument of the view. *)
Definition bind_view (view : view_name) (kwargs : list (string * url_arg))
    (request : Request) : option Call :=
  match view with
  | view_callback => Some (Call_callback request)
  | view_get_user_info => Some (Call_get_user_info request)
  | view_add_preferences =>
      match dict_lookup "user_id" kwargs, dict_lookup "track" kwargs,
            dict_lookup "artist" kwargs with
      | Some (ArgInt user_id), Some (ArgStr track), Some (ArgStr artist) =>
          Some (Call_add_preferences request user_id track artist)
      | _, _, _ => None
      end
  end.

(** The decimal text of a non-negative number, as a client writes it into
    the path. *)
Definition digit_char (d : Z) : ascii := ascii_of_nat (Z.to_nat (48 + d)).

Fixpoint decimal_digits (fuel : nat) (n : Z) (acc : string) : string :=
  match fuel with
  | O => acc
  | S fuel' =>
      let acc' := String (digit_char (n mod 10)) acc in
      if n <? 10 then acc' else decimal_digits fuel' (n / 10) acc'
  end.

Definition decimal (n : Z) : string :=
  decimal_digits (S (Z.to_nat n)) n EmptyString.

(** The path a client asks for to add a preference, the user id written as
    [digits]. *)
Definition add_preferences_path (digits track artist : string) : string :=
  "users/add-preferences/" ++ digits ++ "/" ++ track ++ "/" ++ artist ++ "/".

(** Number of occurrences of a character. *)
Fixpoint count_char (c : ascii) (s : string) : nat :=
  match s with
  | EmptyString => O
  | String a s' => (if Ascii.eqb a c then 1 else 0) + count_char c s'
  end.

(** Pieces put back together around a separator. *)
Fixpoint join_with (sep : ascii) (pieces : list string) : string :=
  match pieces with
  | [] => EmptyString
  | [piece] => piece
  | piece :: pieces' => piece ++ String sep (join_with sep pieces')
  end.

(** ** What the function views may do to a user *)

(** The row keeps its name and email; preferences that are a list are the
    same list with entries added at the end, any other value stays. *)
Definition user_grows (u u' : User) : Prop :=
  name u' = name u /\ email u' = email u /\
  match preferences u with
  | PList l => exists added, preferences u' = PList (l ++ added)
  | other => preferences u' = other
  end.

(** Row by row: no row appears, none disappears, each one grows. *)
Definition table_grows (t t' : gmap Z User) : Prop :=
  forall user_id,
    match t !! user_id, t' !! user_id with
    | None, None => True
    | Some u, Some u' => user_grows u u'
    | _, _ => False
    end.

Definition is_http_event (e : Event) : Prop :=
  match e with
  | EvHttp _ => True
  | _ => False
  end.

(** ** The wait, seen from outside *)

(** Seconds the clock has advanced after [j] sleeps, the first of them
    being sleep number [k]. *)
Fixpoint slept (env : Env) (k j : nat) : Q :=
  match j with
  | O => 0
  | S j' => (1 + oversleep env k + slept env (S k) j')%Q
  end.

(** The state the wait starts in ([views.py:117-121]): the browser has
    been opened on the authorization URL and the start time read. *)
Definition wait_started (env : Env) (s : State) : State :=
  snd (time_time
         (snd (webbrowser_open (pydict_get "auth_url" (spotify_auth env)) s))).

(** One pass of the [while] of [views.py:123-131] that stays in the loop:
    the clock is read and a second is slept. *)
Definition poll_pass (env : Env) (s : State) : State :=
  snd (time_sleep env 1 (snd (time_time s))).

Fixpoint passes (env : Env) (n : nat) (s : State) : State :=
  match n with
  | O => s
  | S n' => passes env n' (poll_pass env s)
  end.

(** No callback served during a sleep is granted a token. *)
Definition no_grant (env : Env) : Prop :=
  forall k, match arrival env k with
            | None => True
            | Some rq =>
                forall n, status_code
                            (upstream env n
                               (token_request env
                                  (querydict_get "code" (GET rq)))) <> 200
            end.

(** ** Basic facts *)

Lemma sample_track_ok : track_ok Sample.track_item.
Proof.
  exists (JStr "Yesterday"), (JStr "The Beatles"), (JStr "Help!"),
    (JStr "1965-08-06"), (JStr "album").
  split.
  - eexists _, _, _. repeat split; reflexivity.
  - eexists. repeat split; reflexivity.
Qed.

Lemma sample_honours_schema : search_honours_schema Sample.spotify.
Proof.
  intros k tok track artist r _. subst r.
  exists (JDict [("tracks", JDict [("items", JList [Sample.track_item])])]),
    (JDict [("items", JList [Sample.track_item])]), [Sample.track_item].
  repeat split; try reflexivity.
  constructor; [exact sample_track_ok|constructor].
Qed.

Ltac run :=
  unfold bind, ret, lift, http, emit, read_tokens, write_tokens, time_time,
    webbrowser_open, User_objects_get, User_save; simpl.

Lemma callback_run env request s :
  let rq := token_request env (querydict_get "code" (GET request)) in
  let response := upstream env (requests s) rq in
  let s1 := mkState (spotify_tokens s) (users s) (clock s) (sleeps s)
                    (S (requests s)) (log s ++ [EvHttp rq]) in
  callback env request s =
    if status_code response =? 200 then
      match response_json response with
      | Ret token_data =>
          match (access_token <~ getitem token_data "access_token";;
                 refresh_token <~ get_method token_data "refresh_token";;
                 expires_in <~ getitem token_data "expires_in";;
                 Ret [("access_token", access_token);
                      ("refresh_token", refresh_token);
                      ("expires_in", expires_in)]) with
          | Ret tokens =>
              (Ret (PResponse (of_json (JDict tokens)) HTTP_200_OK),
               mkState tokens (users s) (clock s) (sleeps s)
                       (S (requests s)) (log s ++ [EvHttp rq]))
          | Raise e => (Raise e, s1)
          | OutOfFuel => (OutOfFuel, s1)
          end
      | Raise e => (Raise e, s1)
      | OutOfFuel => (OutOfFuel, s1)
      end
    else
      (Ret (PResponse (PDict [("error", PStr "Error al obtener el token de acceso.")])
                      HTTP_400_BAD_REQUEST), s1).
Proof.
  intros rq response s1. unfold callback. run.
  fold rq. fold response.
  destruct (status_code response =? 200); [|reflexivity].
  destruct (response_json response) as [token_data| |]; reflexivity.
Qed.

Lemma callback_frame env request s :
  let s' := snd (callback env request s) in
  users s' = users s /\ clock s' = clock s /\ sleeps s' = sleeps s /\
  log s' = (log s ++ [EvHttp (token_request env (querydict_get "code" (GET request)))])%list.
Proof.
  rewrite callback_run. simpl.
  repeat match goal with
         | |- context [if ?b then _ else _] => destruct b
         | |- context [match ?o with Ret _ => _ | Raise _ => _ | OutOfFuel => _ end] =>
             destruct o
         end; simpl; auto.
Qed.

Lemma callback_store_ok env request s :
  store_ok (spotify_tokens s) ->
  store_ok (spotify_tokens (snd (callback env request s))).
Proof.
  intros Hok. rewrite callback_run. simpl.
  repeat match goal with
         | |- context [if ?b then _ else _] => destruct b
         | |- context [match ?o with Ret _ => _ | Raise _ => _ | OutOfFuel => _ end] =>
             destruct o eqn:?
         end; simpl; auto.
  right.
  match goal with
  | H : and_then (getitem ?t _) _ = Ret _ |- _ =>
      destruct (getitem t "access_token") as [x| |]; simpl in H; try discriminate;
      destruct (get_method t "refresh_token") as [y| |]; simpl in H; try discriminate;
      destruct (getitem t "expires_in") as [z| |]; simpl in H; try discriminate;
      injection H as <-
  end.
  eexists. reflexivity.
Qed.

Lemma time_sleep_spec env secs s :
  exists s' rest,
    time_sleep env secs s = (Ret tt, s') /\
    users s' = users s /\
    clock s' = (clock s + secs + oversleep env (sleeps s))%Q /\
    sleeps s' = S (sleeps s) /\
    log s' = (log s ++ EvSleep secs :: rest)%list /\
    (Forall is_poll_event rest /\ sleep_requests rest = []) /\
    (store_ok (spotify_tokens s) -> store_ok (spotify_tokens s')).
Proof.
  unfold time_sleep.
  destruct (arrival env (sleeps s)) as [rq|].
  - set (s1 := mkState _ _ _ _ _ _).
    destruct (callback_frame env rq s1) as (Hu & Hc & Hn & Hl).
    exists (snd (callback env rq s1)), [EvHttp (token_request env (querydict_get "code" (GET rq)))].
    split; [reflexivity|]. split; [exact Hu|]. split; [exact Hc|].
    split; [exact Hn|]. split; [|split].
    + rewrite Hl. simpl. rewrite <- app_assoc. reflexivity.
    + split; [|reflexivity].
      constructor; [|constructor]. simpl. split; reflexivity.
    + intros Hok. apply callback_store_ok. exact Hok.
  - eexists _, []. repeat split; auto.
Qed.

Lemma wait_for_token_step env fuel timeout start s :
  wait_for_token env (S fuel) timeout start s =
    match spotify_tokens s with
    | [] =>
        let s1 := mkState (spotify_tokens s) (users s) (clock s) (sleeps s)
                          (requests s) (log s ++ [EvTime]) in
        if negb (Qle_bool (clock s - start) timeout) then
          (Ret (Some timeout_response), s1)
        else wait_for_token env fuel timeout start (snd (time_sleep env 1 s1))
    | _ :: _ => (Ret None, s)
    end.
Proof.
  destruct s as [tokens u c n r l].
  cbn [wait_for_token]. unfold bind at 1. unfold read_tokens.
  cbn [spotify_tokens users clock sleeps requests log].
  destruct tokens; [|reflexivity].
  unfold bind at 1. unfold time_time.
  cbn [spotify_tokens users clock sleeps requests log].
  destruct (negb (Qle_bool (c - start) timeout)); [reflexivity|].
  unfold bind.
  match goal with
  | |- context [time_sleep env 1 ?s1] =>
      destruct (time_sleep_spec env 1 s1) as (s' & rest & -> & _)
  end.
  reflexivity.
Qed.

(** Whatever the fuel and the environment, the wait leaves the users alone
    and logs nothing but polling. *)
Lemma wait_for_token_frame env timeout start fuel :
  forall s,
    let s' := snd (wait_for_token env fuel timeout start s) in
    users s' = users s /\
    (store_ok (spotify_tokens s) -> store_ok (spotify_tokens s')) /\
    exists rest, log s' = (log s ++ rest)%list /\ Forall is_poll_event rest.
Proof.
  induction fuel as [|fuel IH]; intros s.
  - simpl. split; [reflexivity|]. split; [auto|].
    exists []. rewrite app_nil_r. auto.
  - rewrite wait_for_token_step.
    destruct (spotify_tokens s) eqn:Ht.
    + cbv zeta.
      destruct (negb (Qle_bool (clock s - start) timeout)).
      * simpl. split; [reflexivity|]. split; [auto|].
        exists [EvTime]. split; auto.
        constructor; simpl; auto.
      * match goal with
        | |- context [time_sleep env 1 ?s1] =>
            destruct (time_sleep_spec env 1 s1)
              as (s2 & rest & -> & Hu & _ & _ & Hl & (Hp & _) & Hok)
        end.
        cbn [snd]. destruct (IH s2) as (Hu' & Hok' & rest' & Hl' & Hp').
        simpl in *. split; [|split].
        -- congruence.
        -- intros H. apply Hok', Hok. left. reflexivity.
        -- exists (EvTime :: EvSleep 1 :: rest ++ rest')%list. split.
           ++ rewrite Hl', Hl. rewrite <- !app_assoc. reflexivity.
           ++ constructor; [exact I|]. constructor; [reflexivity|].
              apply Forall_app_2; assumption.
    + simpl. split; [reflexivity|]. split; [rewrite Ht; auto|].
      exists []. rewrite app_nil_r. auto.
Qed.

Lemma inject_succ (n : nat) :
  (inject_Z (Z.of_nat (S n)) == inject_Z (Z.of_nat n) + 1)%Q.
Proof.
  rewrite Nat2Z.inj_succ. unfold Z.succ. rewrite inject_Z_plus. reflexivity.
Qed.

Lemma timed_out_iff (elapsed timeout : Q) :
  negb (Qle_bool elapsed timeout) = true <-> (timeout < elapsed)%Q.
Proof.
  rewrite negb_true_iff. split.
  - intros H. apply Qnot_le_lt. intros Hle.
    apply Qle_bool_iff in Hle. congruence.
  - intros H. destruct (Qle_bool elapsed timeout) eqn:E; [|reflexivity].
    apply Qle_bool_iff in E. exfalso. apply (Qlt_not_le _ _ H E).
Qed.

(** With sleeps that last at least the second they are asked for, the wait
    is over before the fuel is: [n] counts the sleeps it took. *)
Lemma wait_for_token_terminates env start :
  sleeps_in_full env ->
  forall fuel s,
    store_ok (spotify_tokens s) ->
    (1 <= fuel)%nat ->
    (121 < (clock s - start) + inject_Z (Z.of_nat fuel))%Q ->
    exists left s' n,
      wait_for_token env fuel 120 start s = (Ret left, s') /\
      ((left = None /\
        exists a, dict_lookup "access_token" (spotify_tokens s') = Some a) \/
       (left = Some timeout_response /\ spotify_tokens s' = [] /\
        (120 < clock s' - start)%Q)) /\
      sleeps s' = (sleeps s + n)%nat /\
      (n = O \/ (inject_Z (Z.of_nat n) + (clock s - start) <= 121)%Q) /\
      exists rest, log s' = (log s ++ rest)%list /\
                   sleep_requests rest = repeat 1%Q n.
Proof.
  intros Hfull. induction fuel as [|fuel IH]; intros s Hok Hfuel Hm; [lia|].
  rewrite wait_for_token_step.
  destruct (spotify_tokens s) eqn:Ht.
  - cbv zeta.
    destruct (negb (Qle_bool (clock s - start) 120)) eqn:Hto.
    + apply timed_out_iff in Hto.
      eexists _, _, O. split; [reflexivity|]. cbn.
      split; [right; auto|]. split; [lia|]. split; [auto|].
      exists [EvTime]. split; reflexivity.
    + assert (Hle : (clock s - start <= 120)%Q).
      { apply Qnot_lt_le. intros H. apply timed_out_iff in H. congruence. }
      match goal with
      | |- context [time_sleep env 1 ?s1] =>
          destruct (time_sleep_spec env 1 s1)
            as (s2 & rest & -> & _ & Hc & Hn & Hl & (_ & Hrq) & Hok2)
      end.
      cbn [snd]. cbn in Hc, Hn, Hok2, Hl.
      pose proof (Hfull (sleeps s)) as Hover.
      rewrite inject_succ in Hm.
      destruct (IH s2)
        as (left & s' & n & Hrun & Hres & Hsl & Hbound & rest' & Hl' & Hrq').
      * apply Hok2. left. reflexivity.
      * destruct fuel; [|lia]. exfalso.
        change (inject_Z (Z.of_nat 0)) with 0%Q in Hm. lra.
      * rewrite Hc. lra.
      * exists left, s', (S n). split; [exact Hrun|]. split; [exact Hres|].
        split; [lia|]. split.
        -- right. rewrite inject_succ.
           destruct Hbound as [->|Hb].
           ++ change (inject_Z (Z.of_nat 0)) with 0%Q. lra.
           ++ rewrite Hc in Hb. lra.
        -- exists (EvTime :: EvSleep 1 :: rest ++ rest')%list. split.
           ++ rewrite Hl', Hl, <- !app_assoc. reflexivity.
           ++ cbn [sleep_requests repeat]. f_equal.
              rewrite <- Hrq'. clear -Hrq.
              induction rest as [|[] rest IHr]; cbn in *;
                try discriminate; auto.
  - exists None, s, O. split; [reflexivity|]. split.
    + left. split; [reflexivity|]. rewrite Ht.
      destruct Hok as [Hnil|Hex]; [congruence|exact Hex].
    + split; [lia|]. split; [auto|].
      exists []. rewrite app_nil_r. split; reflexivity.
Qed.

Lemma sleep_requests_app a b :
  sleep_requests (a ++ b) = (sleep_requests a ++ sleep_requests b)%list.
Proof.
  induction a as [|e a IH]; [reflexivity|].
  destruct e; cbn [sleep_requests app]; rewrite IH; reflexivity.
Qed.

(** What one pass of the loop does to the state. *)
Lemma poll_pass_spec env s :
  exists rest,
    users (poll_pass env s) = users s /\
    clock (poll_pass env s) = (clock s + 1 + oversleep env (sleeps s))%Q /\
    sleeps (poll_pass env s) = S (sleeps s) /\
    log (poll_pass env s) = (log s ++ EvTime :: EvSleep 1 :: rest)%list /\
    Forall is_poll_event rest /\ sleep_requests rest = [] /\
    (store_ok (spotify_tokens s) -> store_ok (spotify_tokens (poll_pass env s))).
Proof.
  unfold poll_pass.
  destruct (time_sleep_spec env 1 (snd (time_time s)))
    as (s' & rest & -> & Hu & Hc & Hn & Hl & (Hp & Hrq) & Hok).
  exists rest. cbn [snd time_time users clock sleeps log spotify_tokens] in *.
  split; [exact Hu|]. split; [exact Hc|]. split; [exact Hn|].
  split; [rewrite Hl, <- app_assoc; reflexivity|].
  split; [exact Hp|]. split; [exact Hrq|exact Hok].
Qed.

Lemma passes_spec env n :
  forall s,
    users (passes env n s) = users s /\
    sleeps (passes env n s) = (sleeps s + n)%nat /\
    (store_ok (spotify_tokens s) -> store_ok (spotify_tokens (passes env n s))) /\
    exists polling,
      log (passes env n s) = (log s ++ polling)%list /\
      Forall is_poll_event polling /\
      sleep_requests polling = repeat 1%Q n.
Proof.
  induction n as [|n IH]; intros s; cbn [passes].
  - split; [reflexivity|]. split; [lia|]. split; [auto|].
    exists []. rewrite app_nil_r. split; [reflexivity|].
    split; [constructor|reflexivity].
  - destruct (poll_pass_spec env s)
      as (rest & Hu & _ & Hn & Hl & Hp & Hrq & Hok).
    destruct (IH (poll_pass env s)) as (Hu' & Hn' & Hok' & polling & Hl' & Hp' & Hrq').
    split; [congruence|]. split; [lia|]. split; [auto|].
    exists (EvTime :: EvSleep 1 :: rest ++ polling)%list.
    split; [rewrite Hl', Hl, <- app_assoc; reflexivity|]. split.
    + constructor; [exact I|]. constructor; [reflexivity|].
      apply Forall_app_2; assumption.
    + cbn [sleep_requests repeat]. rewrite sleep_requests_app, Hrq, Hrq'.
      reflexivity.
Qed.

(** The wait, check by check: the store and the clock are looked at in the
    state each pass leaves, and the wait is over at the first check that
    finds the store filled or the time out. *)
Lemma wait_for_token_polls env start :
  sleeps_in_full env ->
  forall fuel s,
    store_ok (spotify_tokens s) ->
    (1 <= fuel)%nat ->
    (121 < (clock s - start) + inject_Z (Z.of_nat fuel))%Q ->
    exists n,
      (n = O \/ (inject_Z (Z.of_nat n) + (clock s - start) <= 121)%Q) /\
      (forall j, (j < n)%nat ->
         spotify_tokens (passes env j s) = [] /\
         (clock (passes env j s) - start <= 120)%Q) /\
      ((spotify_tokens (passes env n s) = [] /\
        (120 < clock (passes env n s) - start)%Q /\
        wait_for_token env fuel 120 start s
        = (Ret (Some timeout_response), snd (time_time (passes env n s)))) \/
       ((exists a, dict_lookup "access_token" (spotify_tokens (passes env n s))
                   = Some a) /\
        wait_for_token env fuel 120 start s = (Ret None, passes env n s))).
Proof.
  intros Hfull. induction fuel as [|fuel IH]; intros s Hok Hfuel Hm; [lia|].
  rewrite wait_for_token_step.
  change (mkState (spotify_tokens s) (users s) (clock s) (sleeps s)
                  (requests s) (log s ++ [EvTime])) with (snd (time_time s)).
  change (snd (time_sleep env 1 (snd (time_time s)))) with (poll_pass env s).
  destruct (spotify_tokens s) eqn:Ht.
  - cbv zeta.
    destruct (negb (Qle_bool (clock s - start) 120)) eqn:Hto.
    + apply timed_out_iff in Hto. exists O. cbn [passes].
      split; [left; reflexivity|]. split; [intros j Hj; lia|].
      left. split; [exact Ht|]. split; [exact Hto|]. reflexivity.
    + assert (Hle : (clock s - start <= 120)%Q).
      { apply Qnot_lt_le. intros H. apply timed_out_iff in H. congruence. }
      destruct (poll_pass_spec env s) as (rest & _ & Hc & _ & _ & _ & _ & Hok2).
      pose proof (Hfull (sleeps s)) as Hover.
      rewrite inject_succ in Hm.
      destruct (IH (poll_pass env s)) as (n & Hbound & Hbefore & Hend).
      * apply Hok2. rewrite Ht. exact Hok.
      * destruct fuel; [|lia]. exfalso.
        change (inject_Z (Z.of_nat 0)) with 0%Q in Hm. lra.
      * rewrite Hc. lra.
      * exists (S n). cbn [passes]. split; [|split].
        -- right. rewrite inject_succ.
           destruct Hbound as [->|Hb].
           ++ change (inject_Z (Z.of_nat 0)) with 0%Q. lra.
           ++ rewrite Hc in Hb. lra.
        -- intros [|j] Hj; cbn [passes].
           ++ split; [exact Ht|exact Hle].
           ++ apply Hbefore. lia.
        -- exact Hend.
  - exists O. cbn [passes]. split; [left; reflexivity|].
    split; [intros j Hj; lia|]. right. split; [|reflexivity].
    rewrite Ht. destruct Hok as [Hnil|Hex]; [congruence|exact Hex].
Qed.

Lemma stored_access_token_run s :
  stored_access_token s =
    (match dict_lookup "access_token" (spotify_tokens s) with
     | Some a => Ret (of_json a)
     | None => Raise KeyError
     end, s).
Proof.
  unfold stored_access_token. run.
  destruct (dict_lookup "access_token" (spotify_tokens s)); reflexivity.
Qed.

Lemma get_spotify_token_run env fuel s :
  get_spotify_token env fuel s =
    match spotify_tokens s with
    | [] =>
        let auth_url := pydict_get "auth_url" (spotify_auth env) in
        let s1 := mkState (spotify_tokens s) (users s) (clock s) (sleeps s)
                          (requests s)
                          ((log s ++ [EvBrowserOpen auth_url]) ++ [EvTime]) in
        match wait_for_token env fuel 120 (clock s) s1 with
        | (Ret (Some r), s') => (Ret r, s')
        | (Ret None, s') => stored_access_token s'
        | (Raise e, s') => (Raise e, s')
        | (OutOfFuel, s') => (OutOfFuel, s')
        end
    | _ :: _ => stored_access_token s
    end.
Proof.
  destruct s as [tokens u c n r l].
  unfold get_spotify_token. unfold bind at 1. unfold read_tokens.
  cbn [spotify_tokens users clock sleeps requests log].
  destruct tokens; [|reflexivity].
  unfold bind at 1. unfold webbrowser_open, emit.
  cbn [spotify_tokens users clock sleeps requests log].
  unfold bind at 1. unfold time_time.
  cbn [spotify_tokens users clock sleeps requests log].
  unfold bind.
  destruct (wait_for_token env fuel 120 c _) as [[[r'|]| |] s']; reflexivity.
Qed.

Lemma get_spotify_token_stored env fuel s a :
  dict_lookup "access_token" (spotify_tokens s) = Some a ->
  get_spotify_token env fuel s = (Ret (of_json a), s).
Proof.
  intros Ha. rewrite get_spotify_token_run.
  destruct (spotify_tokens s) eqn:Ht; [discriminate|].
  rewrite stored_access_token_run, Ht, Ha. reflexivity.
Qed.

(** Whatever the fuel and the environment: the users are left alone, the
    store stays well formed, and the log grows by the browser being opened
    on the authorization URL, one clock read and polling, or not at all. *)
Lemma get_spotify_token_frame env fuel s :
  let s' := snd (get_spotify_token env fuel s) in
  users s' = users s /\
  (store_ok (spotify_tokens s) -> store_ok (spotify_tokens s')) /\
  match spotify_tokens s with
  | [] => exists rest,
      log s' = (log s ++ EvBrowserOpen (pydict_get "auth_url" (spotify_auth env))
                  :: EvTime :: rest)%list /\
      Forall is_poll_event rest
  | _ :: _ => s' = s
  end.
Proof.
  rewrite get_spotify_token_run.
  destruct (spotify_tokens s) eqn:Ht.
  - cbv zeta.
    match goal with
    | |- context [wait_for_token env fuel 120 ?c ?s1] =>
        pose proof (wait_for_token_frame env 120 c fuel s1) as (Hu & Hok & rest & Hl & Hp);
        destruct (wait_for_token env fuel 120 c s1) as [[[r'|]| |] s']
    end; try rewrite stored_access_token_run; cbn [snd fst] in *;
      cbn [spotify_tokens users log] in *;
      (split; [exact Hu|]); (split; [intros _; apply Hok; left; reflexivity|]);
      exists rest; (split; [|exact Hp]);
      rewrite Hl, <- !app_assoc; reflexivity.
  - rewrite stored_access_token_run. cbn [snd].
    split; [reflexivity|]. split; [rewrite Ht; auto|reflexivity].
Qed.

(** With sleeps that last, a well-formed store and fuel for 122 passes of
    the loop, [get_spotify_token] returns: the stored access token, or the
    408 response once more than 120 seconds have gone by. *)
Lemma get_spotify_token_returns env fuel s :
  sleeps_in_full env ->
  store_ok (spotify_tokens s) ->
  (122 <= fuel)%nat ->
  exists result s' n,
    get_spotify_token env fuel s = (Ret result, s') /\
    sleeps s' = (sleeps s + n)%nat /\ (n <= 121)%nat /\
    (exists rest, log s' = (log s ++ rest)%list /\
                  sleep_requests rest = repeat 1%Q n) /\
    ((exists a, dict_lookup "access_token" (spotify_tokens s') = Some a /\
                result = of_json a) \/
     (spotify_tokens s = [] /\ spotify_tokens s' = [] /\
      result = timeout_response /\ (120 < clock s' - clock s)%Q)).
Proof.
  intros Hfull Hok Hfuel. rewrite get_spotify_token_run.
  destruct (spotify_tokens s) eqn:Ht.
  - cbv zeta.
    match goal with
    | |- context [wait_for_token env fuel 120 ?c ?s1] =>
        destruct (wait_for_token_terminates env c Hfull fuel s1)
          as (left & s' & n & -> & Hres & Hn & Hb & rest & Hl & Hrq)
    end.
    + cbn. left. reflexivity.
    + lia.
    + cbn [clock].
      assert (inject_Z 122 <= inject_Z (Z.of_nat fuel))%Q as Hq
        by (rewrite <- Zle_Qle; lia).
      change (inject_Z 122) with 122%Q in Hq. lra.
    + cbn [clock sleeps log] in *.
      assert (Hlog : exists rest0, log s' = (log s ++ rest0)%list /\
                                   sleep_requests rest0 = repeat 1%Q n).
      { exists (EvBrowserOpen (pydict_get "auth_url" (spotify_auth env))
                  :: EvTime :: rest)%list.
        split; [rewrite Hl, <- !app_assoc; reflexivity|exact Hrq]. }
      assert (Hn121 : (n <= 121)%nat).
      { destruct Hb as [->|Hb]; [lia|].
        assert (inject_Z (Z.of_nat n) <= inject_Z 121)%Q as Hq
          by (change (inject_Z 121) with 121%Q; lra).
        rewrite <- Zle_Qle in Hq. lia. }
      destruct Hres as [[-> (a & Ha)]|(-> & Hnil & Hlt)].
      * rewrite stored_access_token_run, Ha.
        exists (of_json a), s', n.
        split; [reflexivity|]. split; [exact Hn|]. split; [exact Hn121|].
        split; [exact Hlog|]. left. eauto.
      * exists timeout_response, s', n.
        split; [reflexivity|]. split; [exact Hn|]. split; [exact Hn121|].
        split; [exact Hlog|]. right. auto.
  - rewrite stored_access_token_run.
    destruct Hok as [Hnil|(a & Ha)]; [congruence|].
    rewrite <- Ht in Ha. rewrite Ha. exists (of_json a), s, O.
    split; [reflexivity|]. split; [lia|]. split; [lia|]. split.
    + exists []. rewrite app_nil_r. split; reflexivity.
    + left. eauto.
Qed.

Lemma comprehension_Forall2 {A B : Type} (f : A -> outcome B) xs ys :
  comprehension f xs = Ret ys <-> Forall2 (fun x y => f x = Ret y) xs ys.
Proof.
  revert ys. induction xs as [|x xs IH]; intros ys; simpl.
  - split.
    + intros [= <-]. constructor.
    + intros H. inversion H. reflexivity.
  - split.
    + destruct (f x) as [y| |] eqn:Hx; try discriminate.
      destruct (comprehension f xs) as [ys'| |] eqn:Hxs; try discriminate.
      intros [= <-]. constructor; [exact Hx|]. apply IH. reflexivity.
    + intros H. inversion H as [|x' y xs' ys' Hx Hrest]; subst.
      rewrite Hx. apply IH in Hrest. rewrite Hrest. reflexivity.
Qed.

Lemma comprehension_total {A B : Type} (f : A -> outcome B) xs :
  Forall (fun x => exists y, f x = Ret y) xs ->
  exists ys, comprehension f xs = Ret ys.
Proof.
  induction 1 as [|x xs [y Hy] _ [ys Hys]]; simpl.
  - eexists. reflexivity.
  - rewrite Hy, Hys. eexists. reflexivity.
Qed.

Lemma track_info_entry_ok item name artist album release_date album_type :
  track_fields item name artist album release_date album_type ->
  track_info_entry item =
    Ret (track_info_dict name artist album release_date album_type).
Proof.
  intros ((first & rest & the_album & Hn & Har & Ha & Hal & Haln)
          & the_album' & Hal' & Hrd & Hat).
  rewrite Hal in Hal'. injection Hal' as <-.
  unfold track_info_entry.
  rewrite Hn, Har, Hal. simpl. rewrite Ha, Haln, Hrd, Hat. reflexivity.
Qed.

Lemma top_track_entry_ok item name artist album :
  top_track_fields item name artist album ->
  top_track_entry item = Ret (top_track_dict name artist album).
Proof.
  intros (first & rest & the_album & Hn & Har & Ha & Hal & Haln).
  unfold top_track_entry.
  rewrite Hn, Har, Hal. simpl. rewrite Ha, Haln. reflexivity.
Qed.

Lemma top_artist_entry_ok item name genres :
  artist_fields item name genres ->
  top_artist_entry item = Ret (top_artist_dict name genres).
Proof.
  intros (Hn & Hg). unfold top_artist_entry. rewrite Hn, Hg. reflexivity.
Qed.

Lemma get_track_info_run env access_token track artist s :
  let rq := search_request env access_token track artist in
  let response := upstream env (requests s) rq in
  get_track_info env access_token track artist s =
    ((if status_code response =? 200 then
        search_data <~ response_json response;;
        tracks <~ (found <~ getitem search_data "tracks";;
                   items <~ getitem found "items";;
                   items <~ iterate items;;
                   comprehension track_info_entry items);;
        Ret (PList tracks)
      else
        Ret (PResponse (PDict [("error", PStr "Error al obtener las canciones.")])
                       HTTP_400_BAD_REQUEST)),
     mkState (spotify_tokens s) (users s) (clock s) (sleeps s)
             (S (requests s)) (log s ++ [EvHttp rq])).
Proof.
  intros rq response. unfold get_track_info. run. fold rq. fold response.
  destruct (status_code response =? 200); [|reflexivity].
  destruct (response_json response) as [sd| |]; simpl; try reflexivity.
  destruct (and_then (getitem sd "tracks") _); reflexivity.
Qed.

Lemma get_top_artists_run env access_token limit time_range s :
  let rq := top_request env SPOTIFY_API_URL access_token limit time_range in
  let response := upstream env (requests s) rq in
  get_top_artists env access_token limit time_range s =
    ((if status_code response =? 200 then
        artists_data <~ response_json response;;
        artists <~ (items <~ getitem artists_data "items";;
                    items <~ iterate items;;
                    comprehension top_artist_entry items);;
        Ret (PDict [("top_artists", PList artists)])
      else
        Ret (PResponse (PDict [("error", PStr "Error al obtener los artistas")])
                       HTTP_400_BAD_REQUEST)),
     mkState (spotify_tokens s) (users s) (clock s) (sleeps s)
             (S (requests s)) (log s ++ [EvHttp rq])).
Proof.
  intros rq response. unfold get_top_artists. run. fold rq. fold response.
  destruct (status_code response =? 200); [|reflexivity].
  destruct (response_json response) as [sd| |]; simpl; try reflexivity.
  destruct (and_then (getitem sd "items") _); reflexivity.
Qed.

Lemma get_top_tracks_run env access_token limit time_range s :
  let rq := top_request env "https://api.spotify.com/v1/me/top/tracks"
                        access_token limit time_range in
  let response := upstream env (requests s) rq in
  get_top_tracks env access_token limit time_range s =
    ((if status_code response =? 200 then
        tracks_data <~ response_json response;;
        tracks <~ (items <~ getitem tracks_data "items";;
                   items <~ iterate items;;
                   comprehension top_track_entry items);;
        Ret (PDict [("top_tracks", PList tracks)])
      else Raise TypeError),
     mkState (spotify_tokens s) (users s) (clock s) (sleeps s)
             (S (requests s)) (log s ++ [EvHttp rq])).
Proof.
  intros rq response. unfold get_top_tracks. run. fold rq. fold response.
  destruct (status_code response =? 200); [|reflexivity].
  destruct (response_json response) as [sd| |]; simpl; try reflexivity.
  destruct (and_then (getitem sd "items") _); reflexivity.
Qed.

(** ** The OAuth round trip *)

(** C4.  The callback endpoint makes one POST to the token URL, carrying
    the [code] of the query string.  When the answer has status 200 (and
    is the JSON object of a token grant, with its [access_token] and
    [expires_in]) the endpoint stores the dictionary of access token,
    refresh token and expiry time and returns it with status 200; when the
    answer has any other status it returns the error message with status
    400. *)
Theorem callback_exchanges_code env request s :
  let code := querydict_get "code" (GET request) in
  let rq := token_request env code in
  let response := upstream env (requests s) rq in
  let result := callback env request s in
  (rq_method rq = HttpPost /\ rq_url rq = SPOTIFY_TOKEN_URL /\
   dict_lookup "code" (rq_payload rq) = Some code /\
   log (snd result) = (log s ++ [EvHttp rq])%list /\
   requests (snd result) = S (requests s)) /\
  (forall d access_token expires_in,
     status_code response = 200 ->
     body response = Some (JDict d) ->
     dict_lookup "access_token" d = Some access_token ->
     dict_lookup "expires_in" d = Some expires_in ->
     let tokens := [("access_token", access_token);
                    ("refresh_token", default JNull (dict_lookup "refresh_token" d));
                    ("expires_in", expires_in)] in
     spotify_tokens (snd result) = tokens /\
     fst result = Ret (PResponse (of_json (JDict tokens)) 200)) /\
  (status_code response <> 200 ->
   fst result =
     Ret (PResponse (PDict [("error", PStr "Error al obtener el token de acceso.")])
                    400)).
Proof.
  intros code rq response result. subst result.
  rewrite callback_run. fold code. fold rq. fold response. cbv zeta.
  split; [|split].
  - split; [reflexivity|]. split; [reflexivity|]. split; [reflexivity|].
    destruct (status_code response =? 200); [|split; reflexivity].
    destruct (response_json response) as [td| |]; try (split; reflexivity).
    destruct (and_then (getitem td "access_token") _); split; reflexivity.
  - intros d a e Hst Hbody Ha He.
    apply Z.eqb_eq in Hst. rewrite Hst.
    unfold response_json. rewrite Hbody. cbn [getitem get_method and_then].
    rewrite Ha, He. cbn [and_then].
    destruct (dict_lookup "refresh_token" d); split; reflexivity.
  - intros Hst. apply Z.eqb_neq in Hst. rewrite Hst. reflexivity.
Qed.

Lemma callback_exchanges_code_witness :
  fst (callback Sample.spotify Sample.authorized Sample.fresh) =
    Ret (PResponse (PDict [("access_token", PStr "BQD-token");
                           ("refresh_token", PStr "AQC-refresh");
                           ("expires_in", PInt 3600)]) 200) /\
  fst (callback Sample.spotify_down Sample.authorized Sample.fresh) =
    Ret (PResponse (PDict [("error", PStr "Error al obtener el token de acceso.")])
                   400).
Proof.
  split.
  - destruct (callback_exchanges_code Sample.spotify Sample.authorized Sample.fresh)
      as (_ & Hok & _).
    exact (proj2 (Hok Sample.token_grant (JStr "BQD-token") (JInt 3600)
                      eq_refl eq_refl eq_refl eq_refl)).
  - destruct (callback_exchanges_code Sample.spotify_down Sample.authorized
                                      Sample.fresh) as (_ & _ & Hfail).
    apply Hfail. simpl. lia.
Defined.

(** C4, read for every status-200 answer, fails: a status-200 answer that
    grants no access token makes the callback raise [KeyError]; nothing is
    returned and nothing is stored. *)
Lemma callback_ungranted_200_raises :
  ~ callback_answers_every_200 Sample.spotify_off_schema Sample.authorized
      Sample.fresh.
Proof.
  intros H. destruct (H eq_refl) as (data & Hdata).
  vm_compute in Hdata. discriminate.
Qed.

(** C8.  A callback whose token POST is answered with a status other than
    200 leaves [spotify_tokens] as it was; the store changes only on a
    status-200 exchange. *)
Theorem callback_failure_keeps_store env request s :
  let response :=
    upstream env (requests s)
             (token_request env (querydict_get "code" (GET request))) in
  let s' := snd (callback env request s) in
  (status_code response <> 200 -> spotify_tokens s' = spotify_tokens s) /\
  (spotify_tokens s' <> spotify_tokens s -> status_code response = 200).
Proof.
  intros response s'.
  assert (Hkeep : status_code response <> 200 ->
                  spotify_tokens s' = spotify_tokens s).
  { intros Hst. subst s'. rewrite callback_run. fold response. cbv zeta.
    apply Z.eqb_neq in Hst. rewrite Hst. reflexivity. }
  split; [exact Hkeep|].
  intros Hchanged. destruct (Z.eq_dec (status_code response) 200) as [E|E].
  - exact E.
  - exfalso. apply Hchanged, Hkeep, E.
Qed.

Lemma callback_failure_keeps_store_witness :
  spotify_tokens (snd (callback Sample.spotify_down Sample.authorized
                                Sample.logged_in)) =
    spotify_tokens Sample.logged_in /\
  status_code (upstream Sample.spotify 0
                 (token_request Sample.spotify
                    (querydict_get "code" (GET Sample.authorized)))) = 200.
Proof.
  split.
  - apply (callback_failure_keeps_store Sample.spotify_down Sample.authorized
                                        Sample.logged_in).
    simpl. lia.
  - apply (callback_failure_keeps_store Sample.spotify Sample.authorized
                                        Sample.fresh).
    vm_compute. discriminate.
Defined.

(** C3.  With an empty token store [get_spotify_token] polls the global
    variable, sleeping one second between checks, with a timeout of 120
    seconds, and the wait ends: after at most 121 sleeps either a callback
    has filled the store and the access token is returned, or more than 120
    seconds have gone by and the timeout response is.  (A sleep is taken
    to last at least the second it is asked for.) *)
Theorem token_wait_terminates env fuel s :
  sleeps_in_full env ->
  spotify_tokens s = [] ->
  (122 <= fuel)%nat ->
  exists result s' n,
    get_spotify_token env fuel s = (Ret result, s') /\
    sleeps s' = (sleeps s + n)%nat /\ (n <= 121)%nat /\
    (exists rest, log s' = (log s ++ rest)%list /\
                  sleep_requests rest = repeat 1%Q n) /\
    ((exists a, dict_lookup "access_token" (spotify_tokens s') = Some a /\
                result = of_json a) \/
     (spotify_tokens s' = [] /\ result = timeout_response /\
      (120 < clock s' - clock s)%Q)).
Proof.
  intros Hfull Hempty Hfuel.
  destruct (get_spotify_token_returns env fuel s Hfull) as
    (result & s' & n & Hrun & Hn & Hle & Hlog & Hres); [left; exact Hempty|exact Hfuel|].
  exists result, s', n. repeat (split; [assumption|]).
  destruct Hres as [Htok|(_ & Hnil & Hr & Hlt)]; [left; exact Htok|right; auto].
Qed.

Lemma token_wait_terminates_witness :
  (exists s' n, get_spotify_token Sample.spotify 122 Sample.fresh
                  = (Ret (PStr "BQD-token"), s') /\ n = 3%nat /\
                sleeps s' = n) /\
  (exists s' n, get_spotify_token Sample.spotify_down 122 Sample.fresh
                  = (Ret timeout_response, s') /\ n = 121%nat /\
                sleeps s' = n).
Proof.
  assert (Hs : sleeps_in_full Sample.spotify) by (intros k; simpl; lra).
  assert (Hd : sleeps_in_full Sample.spotify_down) by (intros k; simpl; lra).
  split.
  - destruct (token_wait_terminates Sample.spotify 122 Sample.fresh Hs)
      as (r & s' & n & Hrun & Hn & _); [reflexivity|lia|].
    exists s', n.
    assert (E : get_spotify_token Sample.spotify 122 Sample.fresh =
                (Ret (PStr "BQD-token"),
                 snd (get_spotify_token Sample.spotify 122 Sample.fresh)))
      by (vm_compute; reflexivity).
    assert (En : sleeps (snd (get_spotify_token Sample.spotify 122 Sample.fresh))
                 = 3%nat) by (vm_compute; reflexivity).
    rewrite Hrun in E. injection E as Er. rewrite Hrun in En. cbn [snd] in En.
    subst r. split; [exact Hrun|]. simpl in Hn. split; congruence.
  - destruct (token_wait_terminates Sample.spotify_down 122 Sample.fresh Hd)
      as (r & s' & n & Hrun & Hn & _); [reflexivity|lia|].
    exists s', n.
    assert (E : get_spotify_token Sample.spotify_down 122 Sample.fresh =
                (Ret timeout_response,
                 snd (get_spotify_token Sample.spotify_down 122 Sample.fresh)))
      by (vm_compute; reflexivity).
    assert (En : sleeps (snd (get_spotify_token Sample.spotify_down 122 Sample.fresh))
                 = 121%nat) by (vm_compute; reflexivity).
    rewrite Hrun in E. injection E as Er. rewrite Hrun in En. cbn [snd] in En.
    subst r. split; [exact Hrun|]. simpl in Hn. split; congruence.
Defined.

(** The same wait without any assumption on the clock: whenever the first
    [n] checks find the store empty and the time not out, what check
    number [n] finds decides the result. *)
Lemma wait_for_token_passes env start n :
  forall fuel s,
    (n < fuel)%nat ->
    (forall j, (j < n)%nat ->
       spotify_tokens (passes env j s) = [] /\
       (clock (passes env j s) - start <= 120)%Q) ->
    (spotify_tokens (passes env n s) = [] ->
     (120 < clock (passes env n s) - start)%Q ->
     wait_for_token env fuel 120 start s
     = (Ret (Some timeout_response), snd (time_time (passes env n s)))) /\
    (spotify_tokens (passes env n s) <> [] ->
     wait_for_token env fuel 120 start s = (Ret None, passes env n s)).
Proof.
  induction n as [|n IH]; intros fuel s Hfuel Hbefore;
    (destruct fuel as [|fuel]; [lia|]); rewrite wait_for_token_step;
    change (mkState (spotify_tokens s) (users s) (clock s) (sleeps s)
                    (requests s) (log s ++ [EvTime])) with (snd (time_time s));
    change (snd (time_sleep env 1 (snd (time_time s)))) with (poll_pass env s);
    cbn [passes].
  - split.
    + intros Hnil Hlate. rewrite Hnil. cbv zeta.
      apply timed_out_iff in Hlate. rewrite Hlate. reflexivity.
    + intros Hfilled. destruct (spotify_tokens s); [congruence|reflexivity].
  - destruct (Hbefore O ltac:(lia)) as (Hnil & Hle). cbn [passes] in Hnil, Hle.
    rewrite Hnil. cbv zeta.
    destruct (negb (Qle_bool (clock s - start) 120)) eqn:Hto.
    + apply timed_out_iff in Hto. exfalso. apply (Qlt_not_le _ _ Hto Hle).
    + apply IH; [lia|]. intros j Hj. apply (Hbefore (S j)). lia.
Qed.

Lemma wait_started_spec env s :
  spotify_tokens s = [] ->
  wait_started env s
  = mkState [] (users s) (clock s) (sleeps s) (requests s)
            (log s ++ [EvBrowserOpen (pydict_get "auth_url" (spotify_auth env));
                       EvTime]).
Proof.
  intros Hempty. unfold wait_started, time_time, webbrowser_open, emit.
  cbn [snd spotify_tokens users clock sleeps requests log].
  rewrite Hempty, <- app_assoc. reflexivity.
Qed.

Lemma get_spotify_token_passes env fuel s n :
  spotify_tokens s = [] ->
  (n < fuel)%nat ->
  let s0 := wait_started env s in
  (forall j, (j < n)%nat ->
     spotify_tokens (passes env j s0) = [] /\
     (clock (passes env j s0) - clock s <= 120)%Q) ->
  (spotify_tokens (passes env n s0) = [] ->
   (120 < clock (passes env n s0) - clock s)%Q ->
   get_spotify_token env fuel s
   = (Ret timeout_response, snd (time_time (passes env n s0)))) /\
  (forall a,
     dict_lookup "access_token" (spotify_tokens (passes env n s0)) = Some a ->
     get_spotify_token env fuel s = (Ret (of_json a), passes env n s0)).
Proof.
  intros Hempty Hfuel s0 Hbefore.
  destruct (wait_for_token_passes env (clock s) n fuel s0 Hfuel Hbefore)
    as (Hlate & Hfilled).
  assert (Hrun : get_spotify_token env fuel s =
                 match wait_for_token env fuel 120 (clock s) s0 with
                 | (Ret (Some r), s') => (Ret r, s')
                 | (Ret None, s') => stored_access_token s'
                 | (Raise e, s') => (Raise e, s')
                 | (OutOfFuel, s') => (OutOfFuel, s')
                 end).
  { rewrite get_spotify_token_run, Hempty. cbv zeta.
    subst s0. rewrite (wait_started_spec env s Hempty), <- app_assoc.
    reflexivity. }
  split.
  - intros Hnil Hgone. rewrite Hrun, (Hlate Hnil Hgone). reflexivity.
  - intros a Ha. rewrite Hrun, Hfilled.
    + rewrite stored_access_token_run, Ha. reflexivity.
    + intros Hnil. rewrite Hnil in Ha. discriminate.
Qed.

(** The wait of [get_spotify_token], check by check: started with an empty
    store and fuel for 122 passes, it returns after [n <= 121] passes, the
    first [n] checks having found the store empty and the time not out, the
    last one the store filled or the time out. *)
Lemma get_spotify_token_polls env fuel s :
  sleeps_in_full env ->
  spotify_tokens s = [] ->
  (122 <= fuel)%nat ->
  let s0 := wait_started env s in
  exists n,
    (n <= 121)%nat /\
    (forall j, (j < n)%nat ->
       spotify_tokens (passes env j s0) = [] /\
       (clock (passes env j s0) - clock s <= 120)%Q) /\
    ((spotify_tokens (passes env n s0) = [] /\
      (120 < clock (passes env n s0) - clock s)%Q /\
      get_spotify_token env fuel s
      = (Ret timeout_response, snd (time_time (passes env n s0)))) \/
     (exists a,
        dict_lookup "access_token" (spotify_tokens (passes env n s0)) = Some a /\
        get_spotify_token env fuel s = (Ret (of_json a), passes env n s0))).
Proof.
  intros Hfull Hempty Hfuel s0.
  rewrite get_spotify_token_run, Hempty. cbv zeta.
  change (mkState [] (users s) (clock s) (sleeps s) (requests s)
            ((log s ++ [EvBrowserOpen (pydict_get "auth_url" (spotify_auth env))])
             ++ [EvTime])) with
    (mkState [] (users s) (clock s) (sleeps s) (requests s)
       (log (snd (webbrowser_open (pydict_get "auth_url" (spotify_auth env)) s))
        ++ [EvTime])).
  assert (Hs0 : s0 = mkState [] (users s) (clock s) (sleeps s) (requests s)
                       (log (snd (webbrowser_open
                                    (pydict_get "auth_url" (spotify_auth env)) s))
                        ++ [EvTime])).
  { subst s0. unfold wait_started, time_time, webbrowser_open, emit.
    cbn [snd spotify_tokens users clock sleeps requests log].
    rewrite Hempty. reflexivity. }
  rewrite <- Hs0.
  destruct (wait_for_token_polls env (clock s) Hfull fuel s0)
    as (n & Hbound & Hbefore & Hend).
  - rewrite Hs0. left. reflexivity.
  - lia.
  - rewrite Hs0. cbn [clock].
    assert (inject_Z 122 <= inject_Z (Z.of_nat fuel))%Q as Hq
      by (rewrite <- Zle_Qle; lia).
    change (inject_Z 122) with 122%Q in Hq. lra.
  - exists n. split; [|split; [exact Hbefore|]].
    + destruct Hbound as [->|Hb]; [lia|].
      rewrite Hs0 in Hb. cbn [clock] in Hb.
      assert (inject_Z (Z.of_nat n) <= inject_Z 121)%Q as Hq
        by (change (inject_Z 121) with 121%Q; lra).
      rewrite <- Zle_Qle in Hq. lia.
    + destruct Hend as [(Hnil & Hlate & ->)|((a & Ha) & ->)].
      * left. split; [exact Hnil|]. split; [exact Hlate|reflexivity].
      * right. exists a. split; [exact Ha|].
        rewrite stored_access_token_run, Ha. reflexivity.
Qed.

(** C6.  [get_spotify_token] builds the authorization URL, opens it in
    the browser and then polls the token store, in that order, and only
    when the store is empty.  The polling is the loop of the source, pass
    by pass: the store is looked at in the state each pass (a clock read
    and a one-second sleep, during which a callback may be served) has
    left; as long as a check finds it empty and the time not out, another
    pass is made; the first check that finds it filled returns the stored
    access token, the first that finds it empty with more than 120 seconds
    gone returns the timeout response.  When the store is populated from
    the start the stored access token is returned at once: nothing is
    logged, no clock is read, no sleep is taken, the state is untouched. *)
Theorem get_spotify_token_sequence env fuel s :
  let auth_url := pydict_get "auth_url" (spotify_auth env) in
  (spotify_tokens s = [] ->
   exists polling,
     log (snd (get_spotify_token env fuel s)) =
       (log s ++ EvBrowserOpen auth_url :: EvTime :: polling)%list /\
     Forall is_poll_event polling) /\
  (sleeps_in_full env -> spotify_tokens s = [] -> (122 <= fuel)%nat ->
   let s0 := wait_started env s in
   s0 = mkState [] (users s) (clock s) (sleeps s) (requests s)
                (log s ++ [EvBrowserOpen auth_url; EvTime]) /\
   exists n polling,
     (n <= 121)%nat /\
     (forall j, (j < n)%nat ->
        spotify_tokens (passes env j s0) = [] /\
        (clock (passes env j s0) - clock s <= 120)%Q) /\
     sleeps (passes env n s0) = (sleeps s + n)%nat /\
     log (passes env n s0) = (log s0 ++ polling)%list /\
     Forall is_poll_event polling /\
     sleep_requests polling = repeat 1%Q n /\
     ((spotify_tokens (passes env n s0) = [] /\
       (120 < clock (passes env n s0) - clock s)%Q /\
       get_spotify_token env fuel s
       = (Ret timeout_response, snd (time_time (passes env n s0)))) \/
      (exists a,
         dict_lookup "access_token" (spotify_tokens (passes env n s0)) = Some a /\
         get_spotify_token env fuel s = (Ret (of_json a), passes env n s0)))) /\
  (forall n,
     spotify_tokens s = [] -> (n < fuel)%nat ->
     let s0 := wait_started env s in
     (forall j, (j < n)%nat ->
        spotify_tokens (passes env j s0) = [] /\
        (clock (passes env j s0) - clock s <= 120)%Q) ->
     (spotify_tokens (passes env n s0) = [] ->
      (120 < clock (passes env n s0) - clock s)%Q ->
      get_spotify_token env fuel s
      = (Ret timeout_response, snd (time_time (passes env n s0)))) /\
     (forall a,
        dict_lookup "access_token" (spotify_tokens (passes env n s0)) = Some a ->
        get_spotify_token env fuel s = (Ret (of_json a), passes env n s0))) /\
  (spotify_tokens s <> [] -> snd (get_spotify_token env fuel s) = s) /\
  (forall a,
     dict_lookup "access_token" (spotify_tokens s) = Some a ->
     get_spotify_token env fuel s = (Ret (of_json a), s)).
Proof.
  intros auth_url.
  pose proof (get_spotify_token_frame env fuel s) as (_ & _ & Hlog).
  split; [|split; [|split; [|split]]].
  - intros Hempty. rewrite Hempty in Hlog. exact Hlog.
  - intros Hfull Hempty Hfuel s0.
    pose proof (wait_started_spec env s Hempty) as Hs0.
    split; [exact Hs0|].
    destruct (get_spotify_token_polls env fuel s Hfull Hempty Hfuel)
      as (n & Hn & Hbefore & Hend).
    fold s0 in Hbefore, Hend.
    destruct (passes_spec env n s0) as (_ & Hsl & _ & polling & Hl & Hp & Hrq).
    exists n, polling. split; [exact Hn|]. split; [exact Hbefore|].
    split; [rewrite Hsl; reflexivity|]. split; [exact Hl|].
    split; [exact Hp|]. split; [exact Hrq|exact Hend].
  - intros n Hempty Hfuel.
    exact (get_spotify_token_passes env fuel s n Hempty Hfuel).
  - intros Hfilled. destruct (spotify_tokens s); [congruence|exact Hlog].
  - intros a Ha. apply get_spotify_token_stored. exact Ha.
Qed.

Lemma get_spotify_token_sequence_witness :
  (exists polling,
     log (snd (get_spotify_token Sample.spotify 122 Sample.fresh)) =
       EvBrowserOpen
         (PStr "https://accounts.spotify.com/authorize?response_type=code&client_id=abc123&redirect_uri=http://127.0.0.1:8000/api/callback/&scope=user-top-read")
       :: EvTime :: polling /\
     Forall is_poll_event polling) /\
  (exists n,
     (n <= 121)%nat /\
     sleeps (passes Sample.spotify n (wait_started Sample.spotify Sample.fresh))
     = n /\
     get_spotify_token Sample.spotify 122 Sample.fresh
     = (Ret (PStr "BQD-token"),
        passes Sample.spotify n (wait_started Sample.spotify Sample.fresh))) /\
  snd (get_spotify_token Sample.spotify 0 Sample.logged_in) = Sample.logged_in /\
  get_spotify_token Sample.spotify 0 Sample.logged_in =
    (Ret (PStr "BQD-token"), Sample.logged_in).
Proof.
  destruct (get_spotify_token_sequence Sample.spotify 122 Sample.fresh)
    as (Hempty & Hpolls & _ & _ & _).
  destruct (get_spotify_token_sequence Sample.spotify 0 Sample.logged_in)
    as (_ & _ & _ & Hfull & Htoken).
  split; [|split; [|split]].
  - apply Hempty. reflexivity.
  - destruct Hpolls as (_ & n & polling & Hn & _ & Hsl & _ & _ & _ & Hend).
    + intros k. simpl. lra.
    + reflexivity.
    + lia.
    + exists n. split; [exact Hn|]. split; [exact Hsl|].
      destruct Hend as [(_ & _ & Hrun)|(a & _ & Hrun)].
      * exfalso.
        assert (E : fst (get_spotify_token Sample.spotify 122 Sample.fresh)
                    = Ret (PStr "BQD-token")) by (vm_compute; reflexivity).
        rewrite Hrun in E. discriminate E.
      * assert (E : fst (get_spotify_token Sample.spotify 122 Sample.fresh)
                    = Ret (PStr "BQD-token")) by (vm_compute; reflexivity).
        rewrite Hrun in E. cbn [fst] in E. rewrite Hrun, E. reflexivity.
  - apply Hfull. simpl. discriminate.
  - apply (Htoken (JStr "BQD-token")). reflexivity.
Defined.

Lemma split_on_app sep a b :
  occurs sep a = false ->
  split_on sep (a ++ String sep b) = a :: split_on sep b.
Proof.
  induction a as [|c a IH]; simpl.
  - intros _. rewrite Ascii.eqb_refl. reflexivity.
  - intros H. apply orb_false_iff in H as [Hc Ha].
    rewrite Hc, (IH Ha). reflexivity.
Qed.

(** C7.  [spotify_auth] is a function of the configuration alone: it
    returns a dictionary with the one key ["auth_url"], holding the
    Spotify authorize endpoint followed by the query parameters
    [response_type=code], [client_id], [redirect_uri] and [scope], in that
    order, with the configured values (an unset client id is rendered as
    [None], an unset redirect URI takes the local default). *)
Theorem spotify_auth_url env :
  let client_id :=
    match dict_lookup "SPOTIFY_CLIENT_ID" (environ env) with
    | Some v => v
    | None => "None"
    end in
  let redirect_uri :=
    match dict_lookup "SPOTIFY_REDIRECT_URI" (environ env) with
    | Some v => v
    | None => "http://127.0.0.1:8000/api/callback/"
    end in
  let query :=
    "response_type=code&client_id=" ++ client_id
    ++ "&redirect_uri=" ++ redirect_uri ++ "&scope=user-top-read" in
  spotify_auth env =
    [("auth_url", PStr ("https://accounts.spotify.com/authorize?" ++ query))] /\
  (occurs "&" client_id = false ->
   occurs "&" redirect_uri = false ->
   split_on "&" query =
     ["response_type=code"; "client_id=" ++ client_id;
      "redirect_uri=" ++ redirect_uri; "scope=user-top-read"]) /\
  (forall env', environ env' = environ env -> spotify_auth env' = spotify_auth env).
Proof.
  intros client_id redirect_uri query.
  assert (Hid : forall e, environ e = environ env ->
                          fstr e (SPOTIFY_CLIENT_ID e) = client_id).
  { intros e He. unfold SPOTIFY_CLIENT_ID, os_getenv, client_id. rewrite He.
    destruct (dict_lookup "SPOTIFY_CLIENT_ID" (environ env)); reflexivity. }
  assert (Huri : forall e, environ e = environ env ->
                           fstr e (SPOTIFY_REDIRECT_URI e) = redirect_uri).
  { intros e He. unfold SPOTIFY_REDIRECT_URI, os_getenv, redirect_uri. rewrite He.
    destruct (dict_lookup "SPOTIFY_REDIRECT_URI" (environ env)); reflexivity. }
  assert (Hurl : forall e, environ e = environ env ->
            spotify_auth e =
              [("auth_url", PStr ("https://accounts.spotify.com/authorize?" ++ query))]).
  { intros e He. unfold spotify_auth. rewrite (Hid e He), (Huri e He).
    reflexivity. }
  split; [apply Hurl; reflexivity|]. split.
  - intros Hc Hr.
    change query
      with ("response_type=code"
            ++ String "&" (("client_id=" ++ client_id)
            ++ String "&" (("redirect_uri=" ++ redirect_uri)
            ++ String "&" "scope=user-top-read"))).
    rewrite split_on_app by reflexivity.
    rewrite split_on_app by exact Hc.
    rewrite split_on_app by exact Hr.
    reflexivity.
  - intros env' He. rewrite (Hurl env' He), (Hurl env eq_refl). reflexivity.
Qed.

Lemma spotify_auth_url_witness :
  spotify_auth Sample.spotify =
    [("auth_url",
      PStr "https://accounts.spotify.com/authorize?response_type=code&client_id=abc123&redirect_uri=http://127.0.0.1:8000/api/callback/&scope=user-top-read")] /\
  split_on "&"
    "response_type=code&client_id=abc123&redirect_uri=http://127.0.0.1:8000/api/callback/&scope=user-top-read" =
    ["response_type=code"; "client_id=abc123";
     "redirect_uri=http://127.0.0.1:8000/api/callback/"; "scope=user-top-read"] /\
  spotify_auth Sample.spotify_down = spotify_auth Sample.spotify.
Proof.
  destruct (spotify_auth_url Sample.spotify) as (Hurl & Hsplit & Hdet).
  split; [exact Hurl|]. split.
  - apply Hsplit; reflexivity.
  - apply Hdet. reflexivity.
Defined.

(** ** The look-ups *)

Lemma Forall2_entries (f : json -> outcome pyval) (P : json -> pyval -> Prop)
    items out :
  Forall (fun x => exists y, f x = Ret y /\ P x y) items ->
  Forall2 (fun x y => f x = Ret y) items out ->
  Forall2 P items out.
Proof.
  intros HP H. induction H as [|x y xs ys Hxy _ IH]; [constructor|].
  inversion HP as [|x' xs' (y' & Hy' & HPx) Hrest]; subst.
  constructor; [|apply IH, Hrest].
  rewrite Hxy in Hy'. injection Hy' as <-. exact HPx.
Qed.

Lemma reshape_items (f : json -> outcome pyval) (P : json -> pyval -> Prop)
    items :
  Forall (fun x => exists y, f x = Ret y /\ P x y) items ->
  exists out,
    comprehension f items = Ret out /\
    length out = length items /\
    Forall2 P items out.
Proof.
  intros HP.
  destruct (comprehension_total f items) as (out & Hout).
  { eapply Forall_impl; [exact HP|]. intros x (y & Hy & _). eauto. }
  exists out. split; [exact Hout|].
  apply comprehension_Forall2 in Hout.
  pose proof (Forall2_entries f P items out HP Hout) as H2.
  split; [symmetry; eapply Forall2_length; exact H2|exact H2].
Qed.

(** C5.  On a status-200 answer (carrying the documented JSON) each
    look-up reshapes the items it is given, one entry per item and in the
    same order: [get_track_info] into dictionaries with exactly the fields
    [track_name], [artist] (the name of the first listed artist), [album],
    [release_date] and [album_type]; [get_top_tracks] into [track_name],
    [artist] and [album]; [get_top_artists] into [name] and [genres]. *)
Theorem lookups_reshape env access_token s :
  (forall track artist search_data found items,
     let response :=
       upstream env (requests s) (search_request env access_token track artist) in
     status_code response = 200 ->
     body response = Some search_data ->
     getitem search_data "tracks" = Ret found ->
     getitem found "items" = Ret (JList items) ->
     Forall track_ok items ->
     exists out,
       fst (get_track_info env access_token track artist s) = Ret (PList out) /\
       length out = length items /\
       Forall2 (fun item entry =>
                  exists name artist album release_date album_type,
                    track_fields item name artist album release_date album_type /\
                    entry = PDict [("track_name", of_json name);
                                   ("artist", of_json artist);
                                   ("album", of_json album);
                                   ("release_date", of_json release_date);
                                   ("album_type", of_json album_type)])
               items out) /\
  (forall limit time_range tracks_data items,
     let response :=
       upstream env (requests s)
                (top_request env "https://api.spotify.com/v1/me/top/tracks"
                             access_token limit time_range) in
     status_code response = 200 ->
     body response = Some tracks_data ->
     getitem tracks_data "items" = Ret (JList items) ->
     Forall top_track_ok items ->
     exists out,
       fst (get_top_tracks env access_token limit time_range s) =
         Ret (PDict [("top_tracks", PList out)]) /\
       length out = length items /\
       Forall2 (fun item entry =>
                  exists name artist album,
                    top_track_fields item name artist album /\
                    entry = PDict [("track_name", of_json name);
                                   ("artist", of_json artist);
                                   ("album", of_json album)])
               items out) /\
  (forall limit time_range artists_data items,
     let response :=
       upstream env (requests s)
                (top_request env SPOTIFY_API_URL access_token limit time_range) in
     status_code response = 200 ->
     body response = Some artists_data ->
     getitem artists_data "items" = Ret (JList items) ->
     Forall artist_ok items ->
     exists out,
       fst (get_top_artists env access_token limit time_range s) =
         Ret (PDict [("top_artists", PList out)]) /\
       length out = length items /\
       Forall2 (fun item entry =>
                  exists name genres,
                    artist_fields item name genres /\
                    entry = PDict [("name", of_json name);
                                   ("genres", of_json genres)])
               items out).
Proof.
  split; [|split].
  - intros track artist sd found items response Hst Hbody Hfound Hitems Hok.
    rewrite get_track_info_run. fold response. cbn [fst].
    apply Z.eqb_eq in Hst. rewrite Hst.
    unfold response_json. rewrite Hbody. cbn [and_then].
    rewrite Hfound. cbn [and_then]. rewrite Hitems. cbn [and_then iterate].
    edestruct (reshape_items track_info_entry) as (out & -> & Hlen & H2);
      [|exists out; split; [reflexivity|split; [exact Hlen|exact H2]]].
    eapply Forall_impl; [exact Hok|].
    intros item (n & a & al & rd & ty & Hf).
    eexists. split; [apply (track_info_entry_ok _ _ _ _ _ _ Hf)|].
    exists n, a, al, rd, ty. split; [exact Hf|reflexivity].
  - intros limit time_range td items response Hst Hbody Hitems Hok.
    rewrite get_top_tracks_run. fold response. cbn [fst].
    apply Z.eqb_eq in Hst. rewrite Hst.
    unfold response_json. rewrite Hbody. cbn [and_then].
    rewrite Hitems. cbn [and_then iterate].
    edestruct (reshape_items top_track_entry) as (out & -> & Hlen & H2);
      [|exists out; split; [reflexivity|split; [exact Hlen|exact H2]]].
    eapply Forall_impl; [exact Hok|].
    intros item (n & a & al & Hf).
    eexists. split; [apply (top_track_entry_ok _ _ _ _ Hf)|].
    exists n, a, al. split; [exact Hf|reflexivity].
  - intros limit time_range ad items response Hst Hbody Hitems Hok.
    rewrite get_top_artists_run. fold response. cbn [fst].
    apply Z.eqb_eq in Hst. rewrite Hst.
    unfold response_json. rewrite Hbody. cbn [and_then].
    rewrite Hitems. cbn [and_then iterate].
    edestruct (reshape_items top_artist_entry) as (out & -> & Hlen & H2);
      [|exists out; split; [reflexivity|split; [exact Hlen|exact H2]]].
    eapply Forall_impl; [exact Hok|].
    intros item (n & g & Hf).
    eexists. split; [apply (top_artist_entry_ok _ _ _ Hf)|].
    exists n, g. split; [exact Hf|reflexivity].
Qed.

Lemma lookups_reshape_witness :
  (exists out,
     fst (get_track_info Sample.spotify (PStr "BQD-token") "Yesterday"
                         "The Beatles" Sample.logged_in) = Ret (PList out) /\
     length out = 1%nat) /\
  (exists out,
     fst (get_top_tracks Sample.spotify (PStr "BQD-token") 10 "medium_term"
                         Sample.logged_in) = Ret (PDict [("top_tracks", PList out)]) /\
     length out = 2%nat) /\
  (exists out,
     fst (get_top_artists Sample.spotify (PStr "BQD-token") 10 "medium_term"
                          Sample.logged_in) = Ret (PDict [("top_artists", PList out)]) /\
     length out = 1%nat).
Proof.
  assert (H1 : track_ok Sample.track_item) by exact sample_track_ok.
  assert (H1' : top_track_ok Sample.track_item).
  { exists (JStr "Yesterday"), (JStr "The Beatles"), (JStr "Help!").
    eexists _, _, _. repeat split; reflexivity. }
  assert (H2 : top_track_ok Sample.track_item2).
  { exists (JStr "So What"), (JStr "Miles Davis"), (JStr "Kind of Blue").
    eexists _, _, _. repeat split; reflexivity. }
  assert (H3 : artist_ok Sample.artist_item).
  { exists (JStr "Miles Davis"), (JList [JStr "jazz"; JStr "cool jazz"]).
    split; reflexivity. }
  destruct (lookups_reshape Sample.spotify (PStr "BQD-token") Sample.logged_in)
    as (Hinfo & Htracks & Hartists).
  split; [|split].
  - destruct (Hinfo "Yesterday" "The Beatles"
                (JDict [("tracks", JDict [("items", JList [Sample.track_item])])])
                (JDict [("items", JList [Sample.track_item])])
                [Sample.track_item])
      as (out & Hout & Hlen & _);
      [reflexivity|reflexivity|reflexivity|reflexivity|repeat constructor; exact H1|].
    exists out. split; [exact Hout|exact Hlen].
  - destruct (Htracks 10 "medium_term"
                (JDict [("items", JList [Sample.track_item2; Sample.track_item])])
                [Sample.track_item2; Sample.track_item])
      as (out & Hout & Hlen & _);
      [reflexivity|reflexivity|reflexivity|repeat constructor; assumption|].
    exists out. split; [exact Hout|exact Hlen].
  - destruct (Hartists 10 "medium_term"
                (JDict [("items", JList [Sample.artist_item])])
                [Sample.artist_item])
      as (out & Hout & Hlen & _);
      [reflexivity|reflexivity|reflexivity|repeat constructor; exact H3|].
    exists out. split; [exact Hout|exact Hlen].
Defined.

(** C5, read for every status-200 answer, fails: on a status-200 list in
    which one track has no artist the look-ups raise and return no list at
    all, not even the entries of the items before it. *)
Lemma lookups_off_schema_200_raise :
  ~ reshapes_every_200 Sample.spotify_off_schema (PStr "BQD-token")
      Sample.logged_in.
Proof.
  intros (_ & H & _).
  destruct (H 10 "medium_term" eq_refl) as (out & Hout).
  vm_compute in Hout. discriminate.
Qed.

(** ** [add_preferences] *)




(** Under the documented schema the look-up always returns. *)
Lemma get_track_info_returns env access_token track artist s :
  search_honours_schema env ->
  exists track_info s1,
    get_track_info env access_token track artist s = (Ret track_info, s1).
Proof.
  intros Hschema. rewrite get_track_info_run. cbv zeta.
  destruct (status_code _ =? 200) eqn:Hst; [|eexists _, _; reflexivity].
  apply Z.eqb_eq in Hst.
  destruct (Hschema _ _ _ _ Hst) as (sd & found & items & Hbody & Hf & Hi & Hok).
  unfold response_json. rewrite Hbody. cbn [and_then].
  rewrite Hf. cbn [and_then]. rewrite Hi. cbn [and_then iterate].
  destruct (comprehension_total track_info_entry items) as (out & ->).
  { eapply Forall_impl; [exact Hok|].
    intros item (n & a & al & rd & ty & Hfields).
    eexists. apply (track_info_entry_ok _ _ _ _ _ _ Hfields). }
  eexists _, _. reflexivity.
Qed.

Lemma add_preferences_object_run env fuel user_id track artist s :
  add_preferences_object env fuel user_id track artist s =
    match users s !! user_id with
    | None => (Raise DoesNotExist, s)
    | Some user =>
        match get_spotify_token env fuel s with
        | (Ret access_token, s0) =>
            match get_track_info env access_token track artist s0 with
            | (Ret track_info, s1) =>
                (match append (preferences user)
                              (PDict [("track_info", track_info)]) with
                 | Ret appended => Ret (mkUser (name user) (email user) appended)
                 | Raise e => Raise e
                 | OutOfFuel => OutOfFuel
                 end, s1)
            | (Raise e, s1) => (Raise e, s1)
            | (OutOfFuel, s1) => (OutOfFuel, s1)
            end
        | (Raise e, s0) => (Raise e, s0)
        | (OutOfFuel, s0) => (OutOfFuel, s0)
        end
    end.
Proof.
  unfold add_preferences_object. unfold bind at 1. unfold User_objects_get.
  destruct (users s !! user_id) as [user|]; [|reflexivity].
  unfold bind at 1.
  destruct (get_spotify_token env fuel s) as [[tok| |] s0]; try reflexivity.
  unfold bind at 1.
  destruct (get_track_info env tok track artist s0) as [[ti| |] s1];
    try reflexivity.
  unfold bind, lift, ret.
  destruct (append _ _); reflexivity.
Qed.

Lemma add_preferences_run env fuel request user_id track artist s :
  add_preferences env fuel request user_id track artist s =
    match add_preferences_object env fuel user_id track artist s with
    | (Ret user, s1) =>
        if json_serializable (preferences user) then
          (Ret (preferences_added user),
           mkState (spotify_tokens s1) (<[user_id := user]> (users s1))
                   (clock s1) (sleeps s1) (requests s1) (log s1))
        else (Raise TypeError, s1)
    | (Raise e, s1) => (Raise e, s1)
    | (OutOfFuel, s1) => (OutOfFuel, s1)
    end.
Proof.
  unfold add_preferences. unfold bind at 1.
  destruct (add_preferences_object env fuel user_id track artist s)
    as [[user| |] s1]; try reflexivity.
  unfold bind, User_save, ret.
  destruct (json_serializable (preferences user)); reflexivity.
Qed.

(** Up to [user.save()] the table is only read. *)
Lemma add_preferences_object_users env fuel user_id track artist s :
  users (snd (add_preferences_object env fuel user_id track artist s)) = users s.
Proof.
  rewrite add_preferences_object_run.
  destruct (users s !! user_id) as [user|]; [|reflexivity].
  pose proof (get_spotify_token_frame env fuel s) as (Hu & _).
  destruct (get_spotify_token env fuel s) as [[tok| |] s0]; cbn [snd] in *;
    try exact Hu.
  rewrite get_track_info_run. cbv zeta.
  destruct (if status_code _ =? 200 then _ else _); exact Hu.
Qed.

(** What one call does to the row of an existing user whose preferences
    are a list, case by case. *)
Lemma add_preferences_cases env fuel request user_id track artist s user prefs :
  users s !! user_id = Some user ->
  preferences user = PList prefs ->
  let run := add_preferences env fuel request user_id track artist s in
  (exists access_token s0 track_info s1,
     get_spotify_token env fuel s = (Ret access_token, s0) /\
     get_track_info env access_token track artist s0 = (Ret track_info, s1) /\
     let after := mkUser (name user) (email user)
                         (PList (prefs ++ [PDict [("track_info", track_info)]])) in
     (json_serializable (preferences after) = true /\
      fst run = Ret (preferences_added after) /\
      users (snd run) = <[user_id := after]> (users s)) \/
     (json_serializable (preferences after) = false /\
      fst run = Raise TypeError /\ users (snd run) = users s)) \/
  ((forall response, fst run <> Ret response) /\ users (snd run) = users s /\
   forall access_token s0 track_info s1,
     get_spotify_token env fuel s = (Ret access_token, s0) ->
     get_track_info env access_token track artist s0 <> (Ret track_info, s1)).
Proof.
  intros Huser Hprefs run. subst run.
  pose proof (add_preferences_object_users env fuel user_id track artist s) as Hframe.
  rewrite add_preferences_run. revert Hframe.
  rewrite add_preferences_object_run, Huser.
  destruct (get_spotify_token env fuel s) as [[tok| |] s0] eqn:Htok;
    [|intros Hframe; right; repeat split; try discriminate; exact Hframe ..].
  destruct (get_track_info env tok track artist s0) as [[ti| |] s1] eqn:Hti.
  - rewrite Hprefs. cbn [append preferences snd]. intros Hframe. left.
    exists tok, s0, ti, s1. split; [reflexivity|]. split; [exact Hti|].
    cbv zeta. cbn [preferences].
    destruct (json_serializable (PList (prefs ++ [PDict [("track_info", ti)]]))).
    + left. split; [reflexivity|]. split; [reflexivity|].
      cbn [snd users]. rewrite Hframe. reflexivity.
    + right. split; [reflexivity|]. split; [reflexivity|exact Hframe].
  - intros Hframe. right. split; [discriminate|]. split; [exact Hframe|].
    intros tok' s0' ti' s1' [= <- <-]. rewrite Hti. discriminate.
  - intros Hframe. right. split; [discriminate|]. split; [exact Hframe|].
    intros tok' s0' ti' s1' [= <- <-]. rewrite Hti. discriminate.
Qed.








(** A call that returns found the user, with a list for preferences. *)
Lemma add_preferences_returns_inv env fuel request user_id track artist s response :
  fst (add_preferences env fuel request user_id track artist s) = Ret response ->
  exists user prefs,
    users s !! user_id = Some user /\ preferences user = PList prefs.
Proof.
  rewrite add_preferences_run, add_preferences_object_run.
  destruct (users s !! user_id) as [user|] eqn:Huser; [|discriminate].
  destruct (get_spotify_token env fuel s) as [[tok| |] s0];
    [|discriminate..].
  destruct (get_track_info env tok track artist s0) as [[ti| |] s1];
    [|discriminate..].
  destruct (preferences user) as [| | | |prefs| |] eqn:Hprefs; cbn [append];
    try discriminate.
  intros _. exists user, prefs. split; [reflexivity|exact Hprefs].
Qed.

(** C9.  A successful call of [add_preferences] changes nothing of the
    [User] table but the preferences of the targeted user: the user's name
    and email are what they were and every other row is untouched. *)
Theorem add_preferences_frame env fuel request user_id track artist s response :
  let run := add_preferences env fuel request user_id track artist s in
  fst run = Ret response ->
  exists before after,
    users s !! user_id = Some before /\
    users (snd run) !! user_id = Some after /\
    name after = name before /\
    email after = email before /\
    forall other, other <> user_id ->
                  users (snd run) !! other = users s !! other.
Proof.
  intros run Hret.
  destruct (add_preferences_returns_inv env fuel request user_id track artist
              s response Hret) as (user & prefs & Huser & Hprefs).
  destruct (add_preferences_cases env fuel request user_id track artist s
              user prefs Huser Hprefs)
    as [(tok & s0 & ti & s1 & _ & _ & [(_ & _ & Hus)|(_ & Hres & _)])
       |(Hnot & _)]; fold run in Hus || fold run in Hres || fold run in Hnot.
  - eexists user, _. split; [exact Huser|].
    split; [rewrite Hus; apply lookup_insert_eq|].
    split; [reflexivity|]. split; [reflexivity|].
    intros other Hother. rewrite Hus. apply lookup_insert_ne. congruence.
  - rewrite Hres in Hret. discriminate.
  - exfalso. exact (Hnot response Hret).
Qed.

Lemma add_preferences_frame_witness :
  let run := add_preferences Sample.spotify 122 Sample.authorized 1
                             "Yesterday" "The Beatles" Sample.logged_in in
  exists after,
    users (snd run) !! 1 = Some after /\
    name after = "Ana" /\ email after = "ana@example.org" /\
    users (snd run) !! 2 = Some Sample.luis.
Proof.
  intros run.
  assert (Hret : exists response, fst run = Ret response)
    by (eexists; vm_compute; reflexivity).
  destruct Hret as (response & Hret).
  destruct (add_preferences_frame Sample.spotify 122 Sample.authorized 1
              "Yesterday" "The Beatles" Sample.logged_in response Hret)
    as (before & after & Hb & Ha & Hn & He & Hother).
  fold run in Ha, Hother.
  assert (Hana : name before = "Ana" /\ email before = "ana@example.org")
    by (vm_compute in Hb; injection Hb as <-; split; reflexivity).
  destruct Hana as (Hname & Hemail).
  exists after. split; [exact Ha|].
  split; [congruence|]. split; [congruence|].
  rewrite (Hother 2); [reflexivity|lia].
Defined.

(** C10.  [add_preferences] needs the preferences of the user to be a
    list.  A [User] created without a value for the field gets the empty
    list, on which the append succeeds; yet the field accepts null, and for
    a user whose preferences are null the call never returns the 200
    response: the table is left as it was and, once the token and the
    look-up have returned, it is the append that fails, with
    [AttributeError]. *)
Theorem null_preferences_fail env fuel request user_id track artist s user :
  (forall n e,
     preferences (User_new n e None) = PList [] /\
     forall entry, append (preferences (User_new n e None)) entry
                   = Ret (PList [entry])) /\
  field_accepts User_preferences PNone = true /\
  (users s !! user_id = Some user ->
   preferences user = PNone ->
   let run := add_preferences env fuel request user_id track artist s in
   (forall response, fst run <> Ret response) /\
   users (snd run) = users s /\
   (forall access_token s0 track_info s1,
      get_spotify_token env fuel s = (Ret access_token, s0) ->
      get_track_info env access_token track artist s0 = (Ret track_info, s1) ->
      fst run = Raise AttributeError) /\
   (sleeps_in_full env -> search_honours_schema env ->
    store_ok (spotify_tokens s) -> (122 <= fuel)%nat ->
    fst run = Raise AttributeError)).
Proof.
  split; [|split].
  - intros n e. split; reflexivity.
  - reflexivity.
  - intros Huser Hprefs run.
    pose proof (add_preferences_object_users env fuel user_id track artist s)
      as Hframe.
    assert (Hrun : run =
              match get_spotify_token env fuel s with
              | (Ret access_token, s0) =>
                  match get_track_info env access_token track artist s0 with
                  | (Ret _, s1) => (Raise AttributeError, s1)
                  | (Raise e, s1) => (Raise e, s1)
                  | (OutOfFuel, s1) => (OutOfFuel, s1)
                  end
              | (Raise e, s0) => (Raise e, s0)
              | (OutOfFuel, s0) => (OutOfFuel, s0)
              end).
    { subst run. rewrite add_preferences_run, add_preferences_object_run, Huser.
      destruct (get_spotify_token env fuel s) as [[tok| |] s0]; try reflexivity.
      destruct (get_track_info env tok track artist s0) as [[ti| |] s1];
        try reflexivity.
      rewrite Hprefs. reflexivity. }
    assert (Hsnd : snd run =
                   snd (add_preferences_object env fuel user_id track artist s)).
    { rewrite Hrun, add_preferences_object_run, Huser.
      destruct (get_spotify_token env fuel s) as [[tok| |] s0]; try reflexivity.
      destruct (get_track_info env tok track artist s0) as [[ti| |] s1];
        reflexivity. }
    split; [|split; [|split]].
    + intros response. rewrite Hrun.
      destruct (get_spotify_token env fuel s) as [[tok| |] s0]; try discriminate.
      destruct (get_track_info env tok track artist s0) as [[ti| |] s1];
        discriminate.
    + rewrite Hsnd. exact Hframe.
    + intros tok s0 ti s1 Htok Hti. rewrite Hrun, Htok, Hti. reflexivity.
    + intros Hfull Hschema Hok Hfuel.
      destruct (get_spotify_token_returns env fuel s Hfull Hok Hfuel)
        as (tok & s0 & n & Htok & _).
      destruct (get_track_info_returns env tok track artist s0 Hschema)
        as (ti & s1 & Hti).
      rewrite Hrun, Htok, Hti. reflexivity.
Qed.

Lemma null_preferences_fail_witness :
  let run := add_preferences Sample.spotify 122 Sample.authorized 2
                             "Yesterday" "The Beatles" Sample.fresh in
  fst run = Raise AttributeError /\ users (snd run) = users Sample.fresh.
Proof.
  intros run.
  pose proof sample_honours_schema as Hschema.
  assert (Hfull : sleeps_in_full Sample.spotify) by (intros k; simpl; lra).
  destruct (null_preferences_fail Sample.spotify 122 Sample.authorized 2
              "Yesterday" "The Beatles" Sample.fresh Sample.luis)
    as (_ & _ & Hnull).
  destruct (Hnull eq_refl eq_refl) as (_ & Hus & _ & Hfail).
  split; [|exact Hus].
  apply Hfail; [exact Hfull|exact Hschema|left; reflexivity|lia].
Defined.

(** ** Failures of the third party *)

(** The look-ups that answer a refusal by returning the 400 response. *)
Lemma refusal_returns_400 env access_token s :
  (forall track artist,
     status_code (upstream env (requests s)
                    (search_request env access_token track artist)) <> 200 ->
     fst (get_track_info env access_token track artist s) =
       Ret (PResponse (PDict [("error", PStr "Error al obtener las canciones.")])
                      400)) /\
  (forall limit time_range,
     status_code (upstream env (requests s)
                    (top_request env SPOTIFY_API_URL access_token limit time_range))
       <> 200 ->
     fst (get_top_artists env access_token limit time_range s) =
       Ret (PResponse (PDict [("error", PStr "Error al obtener los artistas")])
                      400)).
Proof.
  split.
  - intros track artist Hst. rewrite get_track_info_run. cbv zeta.
    apply Z.eqb_neq in Hst. rewrite Hst. reflexivity.
  - intros limit time_range Hst. rewrite get_top_artists_run. cbv zeta.
    apply Z.eqb_neq in Hst. rewrite Hst. reflexivity.
Qed.

(** The callers take what a helper returns for the data asked for, the
    error response included: a refused top-artists request is answered
    with status 200; a refused track search, and an expired wait whose 408
    response is sent on as the bearer token, end in an exception. *)
Example refused_artists_answered_200 :
  exists top_tracks,
    fst (get_user_info Sample.spotify_no_artists 122 Sample.authorized
                       Sample.logged_in) =
      Ret (PResponse
             (PDict [("Canciones más escuchadas", top_tracks);
                     ("Artistas más escuchados",
                      PResponse
                        (PDict [("error", PStr "Error al obtener los artistas")])
                        400)])
             200).
Proof. eexists. vm_compute. reflexivity. Qed.

Example refused_search_raises_at_save :
  fst (add_preferences_object Sample.spotify_down 122 1 "Yesterday"
                              "The Beatles" Sample.logged_in) =
    Ret (mkUser "Ana" "ana@example.org"
           (PList [PDict [("track_info",
                           PResponse
                             (PDict [("error",
                                      PStr "Error al obtener las canciones.")])
                             400)]])) /\
  fst (add_preferences Sample.spotify_down 122 Sample.authorized 1 "Yesterday"
                       "The Beatles" Sample.logged_in) = Raise TypeError.
Proof. split; vm_compute; reflexivity. Qed.

Example timeout_response_sent_as_token :
  let run := get_user_info Sample.spotify_down 122 Sample.authorized
                           Sample.fresh in
  fst run = Raise TypeError /\
  last (log (snd run)) =
    Some (EvHttp (top_request Sample.spotify_down
                    "https://api.spotify.com/v1/me/top/tracks"
                    timeout_response 10 "medium_term")).
Proof. split; vm_compute; reflexivity. Qed.

(** C2, where the code departs from it.  When the third party refuses the
    top-tracks request, [get_top_tracks] does not return the 400 response
    it has built: it [raise]s it, and as a [Response] is no exception the
    call ends in a [TypeError]; [get_user_info], which calls it first,
    ends in the same uncaught exception. *)
Theorem top_tracks_refusal_raises env fuel request s :
  (forall access_token limit time_range,
     status_code (upstream env (requests s)
                    (top_request env "https://api.spotify.com/v1/me/top/tracks"
                                 access_token limit time_range)) <> 200 ->
     fst (get_top_tracks env access_token limit time_range s) = Raise TypeError) /\
  (forall a,
     dict_lookup "access_token" (spotify_tokens s) = Some a ->
     status_code (upstream env (requests s)
                    (top_request env "https://api.spotify.com/v1/me/top/tracks"
                                 (of_json a) 10 "medium_term")) <> 200 ->
     fst (get_user_info env fuel request s) = Raise TypeError).
Proof.
  assert (Htracks : forall access_token limit time_range,
     status_code (upstream env (requests s)
                    (top_request env "https://api.spotify.com/v1/me/top/tracks"
                                 access_token limit time_range)) <> 200 ->
     get_top_tracks env access_token limit time_range s =
       (Raise TypeError,
        snd (get_top_tracks env access_token limit time_range s))).
  { intros tok limit time_range Hst. rewrite get_top_tracks_run. cbv zeta.
    apply Z.eqb_neq in Hst. rewrite Hst. reflexivity. }
  split.
  - intros tok limit time_range Hst. rewrite (Htracks _ _ _ Hst). reflexivity.
  - intros a Ha Hst. unfold get_user_info. unfold bind at 1.
    rewrite (get_spotify_token_stored env fuel s a Ha).
    unfold bind at 1. rewrite (Htracks _ _ _ Hst). reflexivity.
Qed.

Lemma top_tracks_refusal_raises_witness :
  fst (get_top_tracks Sample.spotify_down (PStr "BQD-token") 10 "medium_term"
                      Sample.logged_in) = Raise TypeError /\
  fst (get_user_info Sample.spotify_down 122 Sample.authorized Sample.logged_in)
    = Raise TypeError.
Proof.
  destruct (top_tracks_refusal_raises Sample.spotify_down 122 Sample.authorized
                                      Sample.logged_in) as (Htracks & Hinfo).
  split.
  - apply Htracks. simpl. lia.
  - apply (Hinfo (JStr "BQD-token")); [reflexivity|simpl; lia].
Defined.

(** * Further properties of the views *)

(** ** The callback, on answers that are not a token grant *)

Lemma dict_lookup_absent {V : Type} key (d : list (string * V)) :
  ~ In key (map fst d) -> dict_lookup key d = None.
Proof.
  induction d as [|[k v] d IH]; simpl; [reflexivity|].
  intros Hnot. destruct (String.eqb key k) eqn:E.
  - apply String.eqb_eq in E. exfalso. apply Hnot. left. congruence.
  - apply IH. intros Hin. apply Hnot. right. exact Hin.
Qed.

Lemma dict_lookup_app_first {V : Type} key (d1 d2 : list (string * V)) v :
  dict_lookup key d1 = Some v -> dict_lookup key (d1 ++ d2) = Some v.
Proof.
  induction d1 as [|[k x] d1 IH]; simpl; [discriminate|].
  destruct (String.eqb key k); [auto|exact IH].
Qed.

Lemma dict_lookup_app_absent {V : Type} key (d1 d2 : list (string * V)) :
  dict_lookup key d1 = None -> dict_lookup key (d1 ++ d2) = dict_lookup key d2.
Proof.
  induction d1 as [|[k x] d1 IH]; simpl; [reflexivity|].
  destruct (String.eqb key k); [discriminate|exact IH].
Qed.

(** [QueryDict.get]: of several values given for a key the last one counts. *)
Lemma querydict_get_last key q1 v q2 :
  ~ In key (map fst q2) ->
  querydict_get key (q1 ++ (key, v) :: q2) = PStr v.
Proof.
  intros Hnot. unfold querydict_get.
  rewrite rev_app_distr. simpl. rewrite <- app_assoc. simpl.
  rewrite dict_lookup_app_absent.
  - simpl. rewrite String.eqb_refl. reflexivity.
  - apply dict_lookup_absent. rewrite map_rev, <- in_rev. exact Hnot.
Qed.

Lemma querydict_get_absent key q :
  ~ In key (map fst q) -> querydict_get key q = PNone.
Proof.
  intros Hnot. unfold querydict_get. rewrite dict_lookup_absent; [reflexivity|].
  rewrite map_rev, <- in_rev. exact Hnot.
Qed.

(** X1.  A status-200 answer that is not a token grant makes the callback
    raise instead of answering 400, and the token store keeps what it held:
    [JSONDecodeError] when the body is not JSON, [TypeError] when it is not
    an object, [KeyError] when [access_token] or [expires_in] is missing
    (a missing [refresh_token] alone is no error). *)
Theorem callback_raises_on_incomplete_grant env request s :
  let response :=
    upstream env (requests s)
             (token_request env (querydict_get "code" (GET request))) in
  let run := callback env request s in
  status_code response = 200 ->
  (body response = None -> fst run = Raise JSONDecodeError) /\
  (forall d,
     body response = Some (JDict d) ->
     dict_lookup "access_token" d = None \/ dict_lookup "expires_in" d = None ->
     fst run = Raise KeyError) /\
  (forall j,
     body response = Some j -> (forall d, j <> JDict d) ->
     fst run = Raise TypeError) /\
  (forall e, fst run = Raise e -> spotify_tokens (snd run) = spotify_tokens s).
Proof.
  intros response run Hst. subst run.
  rewrite callback_run. fold response. cbv zeta.
  apply Z.eqb_eq in Hst. rewrite Hst. unfold response_json.
  split; [|split; [|split]].
  - intros ->. reflexivity.
  - intros d -> Hmiss. cbn [getitem get_method and_then].
    destruct (dict_lookup "access_token" d) as [a|] eqn:Ha; [|reflexivity].
    destruct Hmiss as [Hmiss|Hmiss]; [discriminate|]. rewrite Hmiss.
    cbn [and_then]. destruct (dict_lookup "refresh_token" d); reflexivity.
  - intros j -> Hnot. destruct j; try reflexivity. exfalso. eapply Hnot.
    reflexivity.
  - intros e.
    destruct (body response) as [j|]; [|intros _; reflexivity].
    destruct (and_then (getitem j "access_token") _);
      [discriminate|intros _; reflexivity|intros _; reflexivity].
Qed.

Lemma callback_raises_on_incomplete_grant_witness :
  let env := mkEnv [] (fun _ _ => mkHttpResponse 200
                                    (Some (JDict [("access_token", JStr "t")])))
                   (fun _ => 0%Q) (fun _ => None) (fun _ => "") in
  let run := callback env Sample.authorized Sample.logged_in in
  fst run = Raise KeyError /\
  spotify_tokens (snd run) = spotify_tokens Sample.logged_in.
Proof.
  intros env run.
  destruct (callback_raises_on_incomplete_grant env Sample.authorized
              Sample.logged_in eq_refl) as (_ & Hkey & _ & Hkeep).
  assert (H : fst run = Raise KeyError).
  { apply (Hkey [("access_token", JStr "t")]); [reflexivity|].
    right. reflexivity. }
  split; [exact H|]. exact (Hkeep KeyError H).
Defined.

(** X2.  The callback never checks that a code came with the request: the
    token POST is made all the same, carrying [None] for the code when the
    query string has none, and the last one when it has several. *)
Theorem callback_posts_whatever_the_code env s :
  (forall q,
     ~ In "code" (map fst q) ->
     log (snd (callback env (mkRequest q) s)) =
       (log s ++ [EvHttp (token_request env PNone)])%list) /\
  (forall q1 v q2,
     ~ In "code" (map fst q2) ->
     log (snd (callback env (mkRequest (q1 ++ ("code", v) :: q2)) s)) =
       (log s ++ [EvHttp (token_request env (PStr v))])%list).
Proof.
  split.
  - intros q Hnot.
    destruct (callback_frame env (mkRequest q) s) as (_ & _ & _ & ->).
    cbn [GET]. rewrite (querydict_get_absent "code" q Hnot). reflexivity.
  - intros q1 v q2 Hnot.
    destruct (callback_frame env (mkRequest (q1 ++ ("code", v) :: q2)) s)
      as (_ & _ & _ & ->).
    cbn [GET]. rewrite (querydict_get_last "code" q1 v q2 Hnot). reflexivity.
Qed.

Lemma callback_posts_whatever_the_code_witness :
  log (snd (callback Sample.spotify (mkRequest [("state", "x")]) Sample.fresh)) =
    [EvHttp (token_request Sample.spotify PNone)] /\
  log (snd (callback Sample.spotify
                     (mkRequest [("code", "first"); ("code", "second")])
                     Sample.fresh)) =
    [EvHttp (token_request Sample.spotify (PStr "second"))].
Proof.
  destruct (callback_posts_whatever_the_code Sample.spotify Sample.fresh)
    as (Hnone & Hlast).
  split.
  - apply (Hnone [("state", "x")]). simpl. intros [H|[]]. discriminate.
  - apply (Hlast [("code", "first")] "second" []). simpl. tauto.
Defined.

(** A granted callback: what it stores. *)
Lemma callback_granted env request s d access_token expires_in :
  let response :=
    upstream env (requests s)
             (token_request env (querydict_get "code" (GET request))) in
  status_code response = 200 ->
  body response = Some (JDict d) ->
  dict_lookup "access_token" d = Some access_token ->
  dict_lookup "expires_in" d = Some expires_in ->
  spotify_tokens (snd (callback env request s)) =
    [("access_token", access_token);
     ("refresh_token", default JNull (dict_lookup "refresh_token" d));
     ("expires_in", expires_in)].
Proof.
  intros response Hst Hbody Ha He.
  rewrite callback_run. fold response. cbv zeta.
  apply Z.eqb_eq in Hst. rewrite Hst.
  unfold response_json. rewrite Hbody. cbn [getitem get_method and_then].
  rewrite Ha, He. cbn [and_then].
  destruct (dict_lookup "refresh_token" d); reflexivity.
Qed.

(** X3.  The token a callback is granted is the token the views use from
    then on: right after the exchange [get_spotify_token] returns that
    access token, whatever the store held before, without opening the
    browser, reading the clock or sleeping. *)
Theorem granted_token_is_served env fuel request s d access_token expires_in :
  let response :=
    upstream env (requests s)
             (token_request env (querydict_get "code" (GET request))) in
  status_code response = 200 ->
  body response = Some (JDict d) ->
  dict_lookup "access_token" d = Some access_token ->
  dict_lookup "expires_in" d = Some expires_in ->
  let s1 := snd (callback env request s) in
  get_spotify_token env fuel s1 = (Ret (of_json access_token), s1).
Proof.
  intros response Hst Hbody Ha He s1.
  apply get_spotify_token_stored. subst s1.
  rewrite (callback_granted env request s d access_token expires_in
             Hst Hbody Ha He).
  reflexivity.
Qed.

Lemma granted_token_is_served_witness :
  let s1 := snd (callback Sample.spotify Sample.authorized Sample.fresh) in
  get_spotify_token Sample.spotify 0 s1 = (Ret (PStr "BQD-token"), s1).
Proof.
  exact (granted_token_is_served Sample.spotify 0 Sample.authorized Sample.fresh
           Sample.token_grant (JStr "BQD-token") (JInt 3600)
           eq_refl eq_refl eq_refl eq_refl).
Defined.

(** ** Fuel is for the wait only *)

Lemma and_then_never_out_of_fuel {A B : Type} (o : outcome A)
    (k : A -> outcome B) :
  o <> OutOfFuel -> (forall a, k a <> OutOfFuel) -> and_then o k <> OutOfFuel.
Proof.
  intros Ho Hk. destruct o; cbn; [apply Hk|discriminate|].
  exfalso. apply Ho. reflexivity.
Qed.

Lemma getitem_never_out_of_fuel v k : getitem v k <> OutOfFuel.
Proof.
  destruct v; cbn; try discriminate. destruct (dict_lookup k kvs); discriminate.
Qed.

Lemma getitem0_never_out_of_fuel v : getitem0 v <> OutOfFuel.
Proof. destruct v as [| | |[|]|[|]|]; cbn; discriminate. Qed.

Lemma iterate_never_out_of_fuel v : iterate v <> OutOfFuel.
Proof. destruct v; cbn; discriminate. Qed.

Lemma comprehension_never_out_of_fuel {A B : Type} (f : A -> outcome B) xs :
  (forall x, f x <> OutOfFuel) -> comprehension f xs <> OutOfFuel.
Proof.
  intros Hf. induction xs as [|x xs IH]; cbn; [discriminate|].
  specialize (Hf x). destruct (f x); [|discriminate|congruence].
  destruct (comprehension f xs); [discriminate|discriminate|congruence].
Qed.

Ltac never_out_of_fuel :=
  first [ apply getitem_never_out_of_fuel
        | apply getitem0_never_out_of_fuel
        | apply iterate_never_out_of_fuel
        | discriminate
        | apply and_then_never_out_of_fuel;
          [never_out_of_fuel|intros ?; never_out_of_fuel] ].

Lemma track_info_entry_never_out_of_fuel item :
  track_info_entry item <> OutOfFuel.
Proof. unfold track_info_entry. never_out_of_fuel. Qed.

Lemma top_track_entry_never_out_of_fuel item :
  top_track_entry item <> OutOfFuel.
Proof. unfold top_track_entry. never_out_of_fuel. Qed.

Lemma top_artist_entry_never_out_of_fuel item :
  top_artist_entry item <> OutOfFuel.
Proof. unfold top_artist_entry. never_out_of_fuel. Qed.

Lemma get_track_info_never_out_of_fuel env access_token track artist s :
  fst (get_track_info env access_token track artist s) <> OutOfFuel.
Proof.
  rewrite get_track_info_run. cbv zeta. cbn [fst].
  destruct (status_code _ =? 200); [|discriminate].
  unfold response_json. destruct (body _); [|discriminate].
  cbn [and_then].
  repeat (apply and_then_never_out_of_fuel;
          [first [apply getitem_never_out_of_fuel
                 |apply iterate_never_out_of_fuel
                 |idtac]|intros ?]); try discriminate.
  apply comprehension_never_out_of_fuel.
  exact track_info_entry_never_out_of_fuel.
Qed.

(** ** What a call costs *)

(** With a stored token [add_preferences] on an existing user reaches the
    search, and everything but the table is settled there. *)
Lemma add_preferences_stored_token_state env fuel request user_id track artist
    s user a :
  users s !! user_id = Some user ->
  dict_lookup "access_token" (spotify_tokens s) = Some a ->
  let s' := snd (add_preferences env fuel request user_id track artist s) in
  spotify_tokens s' = spotify_tokens s /\
  clock s' = clock s /\ sleeps s' = sleeps s /\
  requests s' = S (requests s) /\
  log s' = (log s ++ [EvHttp (search_request env (of_json a) track artist)])%list.
Proof.
  intros Huser Ha. cbv zeta.
  rewrite add_preferences_run, add_preferences_object_run, Huser.
  rewrite (get_spotify_token_stored env fuel s a Ha).
  rewrite get_track_info_run. cbv zeta.
  destruct (if status_code _ =? 200 then _ else _) as [ti| |];
    try (cbn; repeat split; reflexivity).
  destruct (append (preferences user) _) as [p| |];
    try (cbn; repeat split; reflexivity).
  cbn [preferences].
  destruct (json_serializable p); cbn; repeat split; reflexivity.
Qed.

(** X4.  When [add_preferences] fails, it matters where.  For a user that
    does not exist it fails before anything else is done: no token is
    fetched, no request goes out, the state is what it was.  For a user
    whose preferences are null it fails only after the track search has
    been sent to the third party. *)
Theorem add_preferences_failure_order env fuel request user_id track artist s :
  let run := add_preferences env fuel request user_id track artist s in
  (users s !! user_id = None -> run = (Raise DoesNotExist, s)) /\
  (forall user a,
     users s !! user_id = Some user ->
     preferences user = PNone ->
     dict_lookup "access_token" (spotify_tokens s) = Some a ->
     (exists e, fst run = Raise e) /\
     users (snd run) = users s /\
     log (snd run) =
       (log s ++ [EvHttp (search_request env (of_json a) track artist)])%list).
Proof.
  intros run. split.
  - intros Hnone. subst run.
    rewrite add_preferences_run, add_preferences_object_run, Hnone.
    reflexivity.
  - intros user a Huser Hnull Ha.
    destruct (add_preferences_stored_token_state env fuel request user_id track
                artist s user a Huser Ha) as (_ & _ & _ & _ & Hl).
    fold run in Hl. split; [|split; [|exact Hl]].
    + subst run.
      rewrite add_preferences_run, add_preferences_object_run, Huser.
      rewrite (get_spotify_token_stored env fuel s a Ha).
      destruct (get_track_info env (of_json a) track artist s)
        as [[ti| |] s1] eqn:Hti.
      * rewrite Hnull. cbn. eexists. reflexivity.
      * cbn. eexists. reflexivity.
      * exfalso.
        apply (get_track_info_never_out_of_fuel env (of_json a) track artist s).
        rewrite Hti. reflexivity.
    + subst run. rewrite add_preferences_run.
      pose proof (add_preferences_object_users env fuel user_id track artist s)
        as Hframe. revert Hframe.
      rewrite add_preferences_object_run, Huser.
      rewrite (get_spotify_token_stored env fuel s a Ha).
      destruct (get_track_info env (of_json a) track artist s)
        as [[ti| |] s1]; try (cbn; intros ->; reflexivity).
      rewrite Hnull. cbn. intros ->. reflexivity.
Qed.

Lemma add_preferences_failure_order_witness :
  add_preferences Sample.spotify 122 Sample.authorized 99 "Yesterday"
                  "The Beatles" Sample.fresh
  = (Raise DoesNotExist, Sample.fresh) /\
  log (snd (add_preferences Sample.spotify 122 Sample.authorized 2 "Yesterday"
                            "The Beatles" Sample.logged_in)) =
    [EvHttp (search_request Sample.spotify (PStr "BQD-token") "Yesterday"
                            "The Beatles")].
Proof.
  split.
  - apply (add_preferences_failure_order Sample.spotify 122 Sample.authorized 99).
    reflexivity.
  - destruct (add_preferences_failure_order Sample.spotify 122 Sample.authorized
                2 "Yesterday" "The Beatles" Sample.logged_in) as (_ & Hnull).
    apply (Hnull Sample.luis (JStr "BQD-token")); reflexivity.
Defined.

(** X5.  With a token in the store a call of [add_preferences] on an
    existing user costs exactly one request to the third party, the track
    search carrying the stored token as bearer, whether the call then
    returns or raises; the token store and the clock are left alone. *)
Theorem add_preferences_costs_one_search env fuel request user_id track artist
    s user a :
  users s !! user_id = Some user ->
  dict_lookup "access_token" (spotify_tokens s) = Some a ->
  let s' := snd (add_preferences env fuel request user_id track artist s) in
  let search := search_request env (of_json a) track artist in
  log s' = (log s ++ [EvHttp search])%list /\
  requests s' = S (requests s) /\
  dict_lookup "Authorization" (rq_headers search)
  = Some ("Bearer " ++ fstr env (of_json a)) /\
  spotify_tokens s' = spotify_tokens s /\
  clock s' = clock s /\ sleeps s' = sleeps s.
Proof.
  intros Huser Ha s' search.
  destruct (add_preferences_stored_token_state env fuel request user_id track
              artist s user a Huser Ha) as (Ht & Hc & Hs & Hr & Hl).
  fold s' in Ht, Hc, Hs, Hr, Hl.
  repeat split; assumption || reflexivity.
Qed.

Lemma add_preferences_costs_one_search_witness :
  let s' := snd (add_preferences Sample.spotify_down 122 Sample.authorized 2
                                 "Yesterday" "The Beatles" Sample.logged_in) in
  requests s' = 1%nat /\ spotify_tokens s' = spotify_tokens Sample.logged_in.
Proof.
  intros s'.
  destruct (add_preferences_costs_one_search Sample.spotify_down 122
              Sample.authorized 2 "Yesterday" "The Beatles" Sample.logged_in
              Sample.luis (JStr "BQD-token") eq_refl eq_refl)
    as (_ & Hr & _ & Ht & _).
  split; [exact Hr|exact Ht].
Defined.

Lemma get_user_info_run env fuel request s :
  get_user_info env fuel request s =
    match get_spotify_token env fuel s with
    | (Ret access_token, s0) =>
        match get_top_tracks env access_token 10 "medium_term" s0 with
        | (Ret top_tracks, s1) =>
            match get_top_artists env access_token 10 "medium_term" s1 with
            | (Ret top_artists, s2) =>
                (Ret (PResponse
                        (PDict [("Canciones más escuchadas", top_tracks);
                                ("Artistas más escuchados", top_artists)])
                        HTTP_200_OK), s2)
            | (Raise e, s2) => (Raise e, s2)
            | (OutOfFuel, s2) => (OutOfFuel, s2)
            end
        | (Raise e, s1) => (Raise e, s1)
        | (OutOfFuel, s1) => (OutOfFuel, s1)
        end
    | (Raise e, s0) => (Raise e, s0)
    | (OutOfFuel, s0) => (OutOfFuel, s0)
    end.
Proof.
  unfold get_user_info. unfold bind at 1.
  destruct (get_spotify_token env fuel s) as [[tok| |] s0]; reflexivity.
Qed.

(** A look-up changes the request counter and the log, nothing else. *)
Lemma get_top_tracks_state env access_token limit time_range s :
  snd (get_top_tracks env access_token limit time_range s) =
    mkState (spotify_tokens s) (users s) (clock s) (sleeps s) (S (requests s))
            (log s ++ [EvHttp (top_request env
                                 "https://api.spotify.com/v1/me/top/tracks"
                                 access_token limit time_range)]).
Proof. rewrite get_top_tracks_run; reflexivity. Qed.

Lemma get_top_artists_state env access_token limit time_range s :
  snd (get_top_artists env access_token limit time_range s) =
    mkState (spotify_tokens s) (users s) (clock s) (sleeps s) (S (requests s))
            (log s ++ [EvHttp (top_request env SPOTIFY_API_URL access_token
                                           limit time_range)]).
Proof. rewrite get_top_artists_run; reflexivity. Qed.

Lemma get_track_info_state env access_token track artist s :
  snd (get_track_info env access_token track artist s) =
    mkState (spotify_tokens s) (users s) (clock s) (sleeps s) (S (requests s))
            (log s ++ [EvHttp (search_request env access_token track artist)]).
Proof. rewrite get_track_info_run; reflexivity. Qed.

(** X6.  With a token in the store [get_user_info] asks the third party
    for the top tracks first and for the top artists only if that look-up
    returned, both with the stored token, [limit=10] and
    [time_range=medium_term]; when the first look-up raises, the second
    request is never made.  The [User] table and the token store are left
    alone either way. *)
Theorem get_user_info_requests env fuel request s a :
  dict_lookup "access_token" (spotify_tokens s) = Some a ->
  let tracks_rq :=
    top_request env "https://api.spotify.com/v1/me/top/tracks" (of_json a) 10
                "medium_term" in
  let artists_rq :=
    top_request env SPOTIFY_API_URL (of_json a) 10 "medium_term" in
  let run := get_user_info env fuel request s in
  users (snd run) = users s /\
  spotify_tokens (snd run) = spotify_tokens s /\
  (forall top_tracks,
     fst (get_top_tracks env (of_json a) 10 "medium_term" s) = Ret top_tracks ->
     log (snd run) = (log s ++ [EvHttp tracks_rq; EvHttp artists_rq])%list /\
     requests (snd run) = S (S (requests s))) /\
  (forall e,
     fst (get_top_tracks env (of_json a) 10 "medium_term" s) = Raise e ->
     fst run = Raise e /\
     log (snd run) = (log s ++ [EvHttp tracks_rq])%list /\
     requests (snd run) = S (requests s)).
Proof.
  intros Ha tracks_rq artists_rq run. subst run.
  rewrite get_user_info_run, (get_spotify_token_stored env fuel s a Ha).
  pose proof (get_top_tracks_state env (of_json a) 10 "medium_term" s) as Hs1.
  destruct (get_top_tracks env (of_json a) 10 "medium_term" s)
    as [[tt| |] s1]; cbn [fst snd] in *; subst s1.
  - match goal with
    | |- context [get_top_artists env ?t ?l ?r ?s1] =>
        pose proof (get_top_artists_state env t l r s1) as Hs2;
        destruct (get_top_artists env t l r s1) as [[ta| |] s2]
    end; cbn [fst snd] in *; subst s2; cbn;
      (split; [reflexivity|]); (split; [reflexivity|]);
      (split; [intros ? _; rewrite <- app_assoc; split; reflexivity
              |intros ? [=]]).
  - cbn. split; [reflexivity|]. split; [reflexivity|].
    split; [intros ? [=]|]. intros e' [= <-]. repeat split; reflexivity.
  - cbn. split; [reflexivity|]. split; [reflexivity|].
    split; intros ? [=].
Qed.

Lemma get_user_info_requests_witness :
  requests (snd (get_user_info Sample.spotify 122 Sample.authorized
                               Sample.logged_in)) = 2%nat /\
  requests (snd (get_user_info Sample.spotify_down 122 Sample.authorized
                               Sample.logged_in)) = 1%nat.
Proof.
  split.
  - destruct (get_user_info_requests Sample.spotify 122 Sample.authorized
                Sample.logged_in (JStr "BQD-token") eq_refl)
      as (_ & _ & Hboth & _).
    eapply Hboth. vm_compute. reflexivity.
  - destruct (get_user_info_requests Sample.spotify_down 122 Sample.authorized
                Sample.logged_in (JStr "BQD-token") eq_refl)
      as (_ & _ & _ & Hone).
    apply (Hone TypeError). vm_compute. reflexivity.
Defined.

(** ** The wait, sleep by sleep *)

Lemma time_sleep_without_grant env secs s :
  no_grant env ->
  spotify_tokens (snd (time_sleep env secs s)) = spotify_tokens s.
Proof.
  intros Hno. unfold time_sleep. specialize (Hno (sleeps s)).
  destruct (arrival env (sleeps s)) as [rq|]; [|reflexivity].
  cbn [snd]. rewrite callback_run. cbv zeta. cbn [requests].
  specialize (Hno (requests s)). apply Z.eqb_neq in Hno. rewrite Hno.
  reflexivity.
Qed.

Lemma slept_exact env k j :
  (forall i, oversleep env i == 0)%Q ->
  (slept env k j == inject_Z (Z.of_nat j))%Q.
Proof.
  intros Hexact. revert k. induction j as [|j IH]; intros k.
  - reflexivity.
  - cbn [slept]. rewrite (IH (S k)), (Hexact k), inject_succ. lra.
Qed.

(** Without a grant the loop is left at the first check that finds more
    than the timeout elapsed: [n] sleeps later. *)
Lemma wait_for_token_times_out_at env start :
  no_grant env ->
  forall n fuel s,
    spotify_tokens s = [] ->
    (120 < clock s - start + slept env (sleeps s) n)%Q ->
    (forall j, (j < n)%nat ->
               (clock s - start + slept env (sleeps s) j <= 120)%Q) ->
    (n < fuel)%nat ->
    exists s',
      wait_for_token env fuel 120 start s = (Ret (Some timeout_response), s') /\
      spotify_tokens s' = [] /\
      users s' = users s /\
      sleeps s' = (sleeps s + n)%nat /\
      (clock s' == clock s + slept env (sleeps s) n)%Q.
Proof.
  intros Hno. induction n as [|n IH]; intros fuel s Hempty Hlate Hearly Hfuel;
    (destruct fuel as [|fuel]; [lia|]); rewrite wait_for_token_step, Hempty;
    cbv zeta.
  - cbn [slept] in Hlate.
    assert (Hto : negb (Qle_bool (clock s - start) 120) = true)
      by (apply timed_out_iff; lra).
    rewrite Hto. eexists. split; [reflexivity|]. cbn.
    repeat split; try assumption; try lia. lra.
  - pose proof (Hearly O ltac:(lia)) as H0. cbn [slept] in H0.
    assert (Hto : negb (Qle_bool (clock s - start) 120) = false).
    { destruct (negb (Qle_bool (clock s - start) 120)) eqn:E; [|reflexivity].
      apply timed_out_iff in E. lra. }
    rewrite Hto.
    match goal with
    | |- context [time_sleep env 1 ?s1] =>
        pose proof (time_sleep_without_grant env 1 s1 Hno) as Hkeep;
        destruct (time_sleep_spec env 1 s1)
          as (s2 & rest & Hrun & Hu & Hc & Hn & _)
    end.
    rewrite Hrun in Hkeep |- *. cbn [snd] in *.
    cbn [spotify_tokens users clock sleeps] in Hkeep, Hu, Hc, Hn.
    destruct (IH fuel s2) as (s' & Hwait & He & Hus & Hsl & Hcl).
    + exact Hkeep.
    + rewrite Hc, Hn. cbn [slept] in Hlate. lra.
    + intros j Hj. rewrite Hc, Hn.
      pose proof (Hearly (S j) ltac:(lia)) as HSj. cbn [slept] in HSj. lra.
    + lia.
    + exists s'. split; [exact Hwait|]. split; [exact He|].
      split; [congruence|]. split; [lia|].
      rewrite Hcl, Hc, Hn. cbn [slept]. lra.
Qed.

Lemma get_spotify_token_times_out_at env fuel s n :
  no_grant env ->
  spotify_tokens s = [] ->
  (120 < slept env (sleeps s) n)%Q ->
  (forall j, (j < n)%nat -> (slept env (sleeps s) j <= 120)%Q) ->
  (n < fuel)%nat ->
  exists s',
    get_spotify_token env fuel s = (Ret timeout_response, s') /\
    spotify_tokens s' = [] /\
    users s' = users s /\
    sleeps s' = (sleeps s + n)%nat /\
    (clock s' == clock s + slept env (sleeps s) n)%Q.
Proof.
  intros Hno Hempty Hlate Hearly Hfuel.
  rewrite get_spotify_token_run, Hempty. cbv zeta.
  match goal with
  | |- context [wait_for_token env fuel 120 ?c ?s1] =>
      destruct (wait_for_token_times_out_at env c Hno n fuel s1)
        as (s' & -> & He & Hu & Hsl & Hcl)
  end; cbn [spotify_tokens users clock sleeps] in *.
  - reflexivity.
  - lra.
  - intros j Hj. specialize (Hearly j Hj). lra.
  - exact Hfuel.
  - exists s'. repeat split; assumption.
Qed.


(** X8.  When every sleep lasts exactly the second it is asked for, a wait
    that no grant ends lasts 121 seconds, one more than the timeout: the
    check after 120 sleeps still finds the elapsed time not greater than
    120. *)
Theorem exact_sleeps_time_out_after_121 env fuel s :
  (forall k, oversleep env k == 0)%Q ->
  no_grant env ->
  spotify_tokens s = [] ->
  (122 <= fuel)%nat ->
  exists s',
    get_spotify_token env fuel s = (Ret timeout_response, s') /\
    sleeps s' = (sleeps s + 121)%nat /\
    (clock s' == clock s + 121)%Q.
Proof.
  intros Hexact Hno Hempty Hfuel.
  destruct (get_spotify_token_times_out_at env fuel s 121 Hno Hempty)
    as (s' & Hrun & _ & _ & Hsl & Hcl).
  - rewrite (slept_exact env _ 121 Hexact). reflexivity.
  - intros j Hj. rewrite (slept_exact env _ j Hexact).
    assert (inject_Z (Z.of_nat j) <= inject_Z 120)%Q
      by (rewrite <- Zle_Qle; lia).
    assumption.
  - lia.
  - exists s'. split; [exact Hrun|]. split; [exact Hsl|].
    rewrite Hcl, (slept_exact env _ 121 Hexact). reflexivity.
Qed.


Lemma exact_sleeps_time_out_after_121_witness :
  exists s',
    get_spotify_token Sample.spotify_down 122 Sample.fresh
    = (Ret timeout_response, s') /\
    sleeps s' = 121%nat.
Proof.
  destruct (exact_sleeps_time_out_after_121 Sample.spotify_down 122 Sample.fresh)
    as (s' & Hrun & Hsl & _).
  - intros k. reflexivity.
  - intros k. exact I.
  - reflexivity.
  - lia.
  - exists s'. split; [exact Hrun|exact Hsl].
Defined.

Lemma time_sleep_quiet env secs s :
  arrival env (sleeps s) = None ->
  time_sleep env secs s =
    (Ret tt,
     mkState (spotify_tokens s) (users s)
             (clock s + secs + oversleep env (sleeps s))%Q (S (sleeps s))
             (requests s) (log s ++ [EvSleep secs])).
Proof. intros H. unfold time_sleep. rewrite H. reflexivity. Qed.

Lemma time_sleep_arrival env secs s rq :
  arrival env (sleeps s) = Some rq ->
  time_sleep env secs s =
    (Ret tt,
     snd (callback env rq
            (mkState (spotify_tokens s) (users s)
                     (clock s + secs + oversleep env (sleeps s))%Q (S (sleeps s))
                     (requests s) (log s ++ [EvSleep secs])))).
Proof. intros H. unfold time_sleep. rewrite H. reflexivity. Qed.

(** A grant that arrives during the sleep number [j] of the wait, the
    checks before it being in time, ends the wait at the next check. *)
Lemma wait_for_token_granted env start rq d access_token expires_in :
  forall j fuel s,
    spotify_tokens s = [] ->
    (forall i, (i < j)%nat -> arrival env (sleeps s + i) = None) ->
    arrival env (sleeps s + j) = Some rq ->
    (let response :=
       upstream env (requests s)
                (token_request env (querydict_get "code" (GET rq))) in
     status_code response = 200 /\
     body response = Some (JDict d) /\
     dict_lookup "access_token" d = Some access_token /\
     dict_lookup "expires_in" d = Some expires_in) ->
    (forall i, (i <= j)%nat ->
               (clock s - start + slept env (sleeps s) i <= 120)%Q) ->
    (j + 2 <= fuel)%nat ->
    exists s',
      wait_for_token env fuel 120 start s = (Ret None, s') /\
      spotify_tokens s' =
        [("access_token", access_token);
         ("refresh_token", default JNull (dict_lookup "refresh_token" d));
         ("expires_in", expires_in)] /\
      users s' = users s /\
      sleeps s' = (sleeps s + S j)%nat.
Proof.
  induction j as [|j IH]; intros fuel s Hempty Hquiet Harr Hgrant Hearly Hfuel;
    (destruct fuel as [|fuel]; [lia|]); rewrite wait_for_token_step, Hempty;
    cbv zeta;
    pose proof (Hearly O ltac:(lia)) as H0; cbn [slept] in H0;
    assert (Hto : negb (Qle_bool (clock s - start) 120) = false)
      by (destruct (negb (Qle_bool (clock s - start) 120)) eqn:E;
          [apply timed_out_iff in E; lra|reflexivity]);
    rewrite Hto.
  - rewrite Nat.add_0_r in Harr.
    rewrite (time_sleep_arrival env 1 _ rq) by exact Harr. cbn [snd].
    cbn [spotify_tokens users clock sleeps requests log].
    set (s1 := mkState _ _ _ _ _ _).
    destruct Hgrant as (Hst & Hbody & Ha & He).
    pose proof (callback_granted env rq s1 d access_token expires_in
                  Hst Hbody Ha He) as Hstore.
    destruct (callback_frame env rq s1) as (Hu & _ & Hsl & _).
    destruct fuel as [|fuel]; [lia|].
    rewrite wait_for_token_step, Hstore.
    eexists. split; [reflexivity|]. split; [exact Hstore|].
    split; [rewrite Hu; reflexivity|]. rewrite Hsl. cbn. lia.
  - rewrite (time_sleep_quiet env 1) by (cbn; rewrite <- (Hquiet O ltac:(lia));
                                          f_equal; lia).
    cbn [snd]. cbn [spotify_tokens users clock sleeps requests log].
    set (s2 := mkState _ _ _ _ _ _).
    destruct (IH fuel s2) as (s' & Hrun & Hstore & Hu & Hsl).
    + subst s2. reflexivity.
    + intros i Hi. subst s2. cbn [sleeps].
      rewrite <- (Hquiet (S i) ltac:(lia)). f_equal. lia.
    + subst s2. cbn [sleeps]. rewrite <- Harr. f_equal. lia.
    + subst s2. cbn [requests]. exact Hgrant.
    + intros i Hi. subst s2. cbn [clock sleeps].
      pose proof (Hearly (S i) ltac:(lia)) as HSi. cbn [slept] in HSi. lra.
    + lia.
    + exists s'. split; [exact Hrun|]. split; [exact Hstore|].
      split; [rewrite Hu; reflexivity|]. rewrite Hsl. subst s2. cbn. lia.
Qed.

(** X9.  A token granted to a callback that is served during the wait is
    returned at the very next check of the store: if the first callback
    arrives during sleep number [j] of the wait (counting from 0) and the
    checks before it were in time, [get_spotify_token] returns the granted
    access token after [j + 1] sleeps, however long that last sleep took:
    the store is looked at before the clock. *)
Theorem grant_during_wait_is_returned env fuel s rq d access_token expires_in j :
  spotify_tokens s = [] ->
  (forall i, (i < j)%nat -> arrival env (sleeps s + i) = None) ->
  arrival env (sleeps s + j) = Some rq ->
  (let response :=
     upstream env (requests s)
              (token_request env (querydict_get "code" (GET rq))) in
   status_code response = 200 /\
   body response = Some (JDict d) /\
   dict_lookup "access_token" d = Some access_token /\
   dict_lookup "expires_in" d = Some expires_in) ->
  (forall i, (i <= j)%nat -> (slept env (sleeps s) i <= 120)%Q) ->
  (j + 2 <= fuel)%nat ->
  exists s',
    get_spotify_token env fuel s = (Ret (of_json access_token), s') /\
    sleeps s' = (sleeps s + S j)%nat /\
    users s' = users s.
Proof.
  intros Hempty Hquiet Harr Hgrant Hearly Hfuel.
  rewrite get_spotify_token_run, Hempty. cbv zeta.
  match goal with
  | |- context [wait_for_token env fuel 120 ?c ?s1] =>
      destruct (wait_for_token_granted env c rq d access_token expires_in
                  j fuel s1)
        as (s' & -> & Hstore & Hu & Hsl)
  end; cbn [spotify_tokens users clock sleeps requests] in *;
    try assumption; try reflexivity.
  - intros i Hi. specialize (Hearly i Hi). lra.
  - rewrite stored_access_token_run, Hstore. cbn.
    exists s'. repeat split; assumption.
Qed.

Lemma grant_during_wait_is_returned_witness :
  exists s',
    get_spotify_token Sample.spotify 4 Sample.fresh
    = (Ret (PStr "BQD-token"), s') /\
    sleeps s' = 3%nat.
Proof.
  destruct (grant_during_wait_is_returned Sample.spotify 4 Sample.fresh
              Sample.authorized Sample.token_grant (JStr "BQD-token")
              (JInt 3600) 2)
    as (s' & Hrun & Hsl & _).
  - reflexivity.
  - intros i Hi. destruct i as [|[|i]]; [reflexivity|reflexivity|lia].
  - reflexivity.
  - repeat split; reflexivity.
  - intros i Hi. destruct i as [|[|[|i]]]; [discriminate..|lia].
  - lia.
  - exists s'. split; [exact Hrun|exact Hsl].
Defined.

(** ** Answers the look-ups are not ready for *)

(** X10.  A search that finds nothing is recorded all the same: when the
    third party answers the track search with status 200 and an empty list
    of items, [add_preferences] appends the entry whose ["track_info"] is
    the empty list and returns its 200 response. *)
Theorem empty_search_is_recorded env fuel request user_id track artist s user
    prefs a search_data found :
  users s !! user_id = Some user ->
  preferences user = PList prefs ->
  json_serializable (PList prefs) = true ->
  dict_lookup "access_token" (spotify_tokens s) = Some a ->
  (let response :=
     upstream env (requests s) (search_request env (of_json a) track artist) in
   status_code response = 200 /\
   body response = Some search_data /\
   getitem search_data "tracks" = Ret found /\
   getitem found "items" = Ret (JList [])) ->
  let after := mkUser (name user) (email user)
                      (PList (prefs ++ [PDict [("track_info", PList [])]])) in
  let run := add_preferences env fuel request user_id track artist s in
  fst run = Ret (preferences_added after) /\
  users (snd run) = <[user_id := after]> (users s).
Proof.
  intros Huser Hprefs Hjson Ha (Hst & Hbody & Hfound & Hitems) after run.
  subst run.
  rewrite add_preferences_run, add_preferences_object_run, Huser.
  rewrite (get_spotify_token_stored env fuel s a Ha).
  rewrite get_track_info_run. cbv zeta.
  apply Z.eqb_eq in Hst. rewrite Hst.
  unfold response_json. rewrite Hbody. cbn [and_then].
  rewrite Hfound. cbn [and_then]. rewrite Hitems.
  cbn [and_then iterate comprehension]. rewrite Hprefs. cbn [append preferences].
  assert (Hser : json_serializable
                   (PList (prefs ++ [PDict [("track_info", PList [])]])) = true).
  { cbn [json_serializable] in *. rewrite forallb_app, Hjson. reflexivity. }
  rewrite Hser. split; reflexivity.
Qed.

Lemma empty_search_is_recorded_witness :
  let env := mkEnv [] (fun _ _ =>
                         mkHttpResponse 200
                           (Some (JDict [("tracks",
                                          JDict [("items", JList [])])])))
                   (fun _ => 0%Q) (fun _ => None) (fun _ => "") in
  preferences <$>
    (users (snd (add_preferences env 0 Sample.authorized 1 "Qwertzuiop" "Nobody"
                                 Sample.logged_in)) !! 1)
  = Some (PList [PDict [("track_info", PList [])]]).
Proof.
  intros env.
  destruct (empty_search_is_recorded env 0 Sample.authorized 1 "Qwertzuiop"
              "Nobody" Sample.logged_in Sample.ana [] (JStr "BQD-token")
              (JDict [("tracks", JDict [("items", JList [])])])
              (JDict [("items", JList [])])
              eq_refl eq_refl eq_refl eq_refl
              (conj eq_refl (conj eq_refl (conj eq_refl eq_refl))))
    as (_ & Hus).
  rewrite Hus, lookup_insert_eq. reflexivity.
Defined.

(** X11.  A status-200 answer that is not the documented JSON makes a
    look-up raise; it does not become the 400 error response: each of the
    three raises [JSONDecodeError] when the body is not JSON and [KeyError]
    when the object lacks the key the items are read from. *)
Theorem lookups_raise_on_undocumented_answer env access_token s :
  (forall track artist,
     let response :=
       upstream env (requests s) (search_request env access_token track artist) in
     status_code response = 200 ->
     (body response = None ->
      fst (get_track_info env access_token track artist s)
      = Raise JSONDecodeError) /\
     (forall d, body response = Some (JDict d) ->
                dict_lookup "tracks" d = None ->
                fst (get_track_info env access_token track artist s)
                = Raise KeyError) /\
     (forall d d', body response = Some (JDict d) ->
                   dict_lookup "tracks" d = Some (JDict d') ->
                   dict_lookup "items" d' = None ->
                   fst (get_track_info env access_token track artist s)
                   = Raise KeyError)) /\
  (forall limit time_range,
     let response :=
       upstream env (requests s)
                (top_request env "https://api.spotify.com/v1/me/top/tracks"
                             access_token limit time_range) in
     status_code response = 200 ->
     (body response = None ->
      fst (get_top_tracks env access_token limit time_range s)
      = Raise JSONDecodeError) /\
     (forall d, body response = Some (JDict d) ->
                dict_lookup "items" d = None ->
                fst (get_top_tracks env access_token limit time_range s)
                = Raise KeyError)) /\
  (forall limit time_range,
     let response :=
       upstream env (requests s)
                (top_request env SPOTIFY_API_URL access_token limit time_range) in
     status_code response = 200 ->
     (body response = None ->
      fst (get_top_artists env access_token limit time_range s)
      = Raise JSONDecodeError) /\
     (forall d, body response = Some (JDict d) ->
                dict_lookup "items" d = None ->
                fst (get_top_artists env access_token limit time_range s)
                = Raise KeyError)).
Proof.
  split; [|split].
  - intros track artist response Hst. rewrite get_track_info_run.
    fold response. cbv zeta. cbn [fst].
    apply Z.eqb_eq in Hst. rewrite Hst. unfold response_json.
    split; [|split].
    + intros ->. reflexivity.
    + intros d -> Hd. cbn. rewrite Hd. reflexivity.
    + intros d d' -> Hd Hd'. cbn. rewrite Hd. cbn. rewrite Hd'. reflexivity.
  - intros limit time_range response Hst. rewrite get_top_tracks_run.
    fold response. cbv zeta. cbn [fst].
    apply Z.eqb_eq in Hst. rewrite Hst. unfold response_json. split.
    + intros ->. reflexivity.
    + intros d -> Hd. cbn. rewrite Hd. reflexivity.
  - intros limit time_range response Hst. rewrite get_top_artists_run.
    fold response. cbv zeta. cbn [fst].
    apply Z.eqb_eq in Hst. rewrite Hst. unfold response_json. split.
    + intros ->. reflexivity.
    + intros d -> Hd. cbn. rewrite Hd. reflexivity.
Qed.

Lemma lookups_raise_on_undocumented_answer_witness :
  let env := mkEnv [] (fun _ _ => mkHttpResponse 200 (Some (JDict [])))
                   (fun _ => 0%Q) (fun _ => None) (fun _ => "") in
  fst (get_track_info env (PStr "t") "a" "b" Sample.fresh) = Raise KeyError /\
  fst (get_top_tracks env (PStr "t") 10 "medium_term" Sample.fresh)
  = Raise KeyError /\
  fst (get_top_artists env (PStr "t") 10 "medium_term" Sample.fresh)
  = Raise KeyError.
Proof.
  intros env.
  destruct (lookups_raise_on_undocumented_answer env (PStr "t") Sample.fresh)
    as (Hinfo & Htracks & Hartists).
  split; [|split].
  - destruct (Hinfo "a" "b" eq_refl) as (_ & Hkey & _).
    apply (Hkey []); reflexivity.
  - destruct (Htracks 10 "medium_term" eq_refl) as (_ & Hkey).
    apply (Hkey []); reflexivity.
  - destruct (Hartists 10 "medium_term" eq_refl) as (_ & Hkey).
    apply (Hkey []); reflexivity.
Defined.

Lemma comprehension_raises {A B : Type} (f : A -> outcome B) good bad rest e :
  Forall (fun x => exists y, f x = Ret y) good ->
  f bad = Raise e ->
  comprehension f (good ++ bad :: rest) = Raise e.
Proof.
  intros Hgood Hbad. induction Hgood as [|x good (y & Hy) _ IH]; cbn.
  - rewrite Hbad. reflexivity.
  - rewrite Hy, IH. reflexivity.
Qed.

(** X12.  One track without artists fails the whole list: if an item of a
    status-200 top-tracks answer has an empty [artists] list, the items
    before it being as documented, [get_top_tracks] raises [IndexError]
    and returns nothing of the others; [get_track_info] does the same. *)
Theorem track_without_artists_fails_the_list env access_token s good bad rest
    name :
  Forall top_track_ok good ->
  getitem bad "name" = Ret name ->
  getitem bad "artists" = Ret (JList []) ->
  (forall limit time_range tracks_data,
     let response :=
       upstream env (requests s)
                (top_request env "https://api.spotify.com/v1/me/top/tracks"
                             access_token limit time_range) in
     status_code response = 200 ->
     body response = Some tracks_data ->
     getitem tracks_data "items" = Ret (JList (good ++ bad :: rest)) ->
     fst (get_top_tracks env access_token limit time_range s)
     = Raise IndexError) /\
  (forall track artist search_data found,
     let response :=
       upstream env (requests s) (search_request env access_token track artist) in
     Forall track_ok good ->
     status_code response = 200 ->
     body response = Some search_data ->
     getitem search_data "tracks" = Ret found ->
     getitem found "items" = Ret (JList (good ++ bad :: rest)) ->
     fst (get_track_info env access_token track artist s) = Raise IndexError).
Proof.
  intros Hgood Hname Hartists. split.
  - intros limit time_range td response Hst Hbody Hitems.
    rewrite get_top_tracks_run. fold response. cbv zeta. cbn [fst].
    apply Z.eqb_eq in Hst. rewrite Hst. unfold response_json. rewrite Hbody.
    cbn [and_then]. rewrite Hitems. cbn [and_then iterate].
    rewrite (comprehension_raises top_track_entry good bad rest IndexError);
      [reflexivity| |].
    + eapply Forall_impl; [exact Hgood|].
      intros item (n & a & al & Hf). eexists.
      apply (top_track_entry_ok _ _ _ _ Hf).
    + unfold top_track_entry. rewrite Hname, Hartists. reflexivity.
  - intros track artist sd found response Hgood' Hst Hbody Hfound Hitems.
    rewrite get_track_info_run. fold response. cbv zeta. cbn [fst].
    apply Z.eqb_eq in Hst. rewrite Hst. unfold response_json. rewrite Hbody.
    cbn [and_then]. rewrite Hfound. cbn [and_then]. rewrite Hitems.
    cbn [and_then iterate].
    rewrite (comprehension_raises track_info_entry good bad rest IndexError);
      [reflexivity| |].
    + eapply Forall_impl; [exact Hgood'|].
      intros item (n & a & al & rd & ty & Hf). eexists.
      apply (track_info_entry_ok _ _ _ _ _ _ Hf).
    + unfold track_info_entry. rewrite Hname, Hartists. reflexivity.
Qed.

Lemma track_without_artists_fails_the_list_witness :
  let jingle := JDict [("name", JStr "Jingle"); ("artists", JList []);
                       ("album", JDict [("name", JStr "Ads")])] in
  let env := mkEnv [] (fun _ _ =>
                         mkHttpResponse 200
                           (Some (JDict [("items",
                                          JList [Sample.track_item; jingle;
                                                 Sample.track_item2])])))
                   (fun _ => 0%Q) (fun _ => None) (fun _ => "") in
  fst (get_top_tracks env (PStr "t") 10 "medium_term" Sample.fresh)
  = Raise IndexError.
Proof.
  intros jingle env.
  destruct (track_without_artists_fails_the_list env (PStr "t") Sample.fresh
              [Sample.track_item] jingle [Sample.track_item2] (JStr "Jingle"))
    as (Htracks & _).
  - constructor; [|constructor].
    exists (JStr "Yesterday"), (JStr "The Beatles"), (JStr "Help!").
    eexists _, _, _. repeat split; reflexivity.
  - reflexivity.
  - reflexivity.
  - apply (Htracks 10 "medium_term"
             (JDict [("items", JList [Sample.track_item; jingle;
                                      Sample.track_item2])]));
      reflexivity.
Defined.

(** ** The authorization URL and the token request *)

Lemma count_char_app sep a b :
  count_char sep (a ++ b) = (count_char sep a + count_char sep b)%nat.
Proof.
  induction a as [|c a IH]; [reflexivity|].
  change (String c a ++ b) with (String c (a ++ b)).
  cbn [count_char]. rewrite IH. lia.
Qed.

Lemma split_on_length sep s :
  length (split_on sep s) = S (count_char sep s).
Proof.
  induction s as [|c s IH]; cbn; [reflexivity|].
  destruct (Ascii.eqb c sep); cbn.
  - rewrite IH. reflexivity.
  - destruct (split_on sep s); cbn in *; lia.
Qed.

(** X13.  Nothing is escaped when the authorization URL is put together:
    cut at ["&"], its query has four parameters plus one more for every
    ["&"] in the configured client id and redirect URI. *)
Theorem auth_url_is_not_escaped env :
  let client_id := fstr env (SPOTIFY_CLIENT_ID env) in
  let redirect_uri := fstr env (SPOTIFY_REDIRECT_URI env) in
  exists query,
    spotify_auth env =
      [("auth_url", PStr ("https://accounts.spotify.com/authorize?" ++ query))] /\
    length (split_on "&" query) =
      (4 + count_char "&" client_id + count_char "&" redirect_uri)%nat.
Proof.
  intros client_id redirect_uri.
  exists ("response_type=code&client_id=" ++ client_id
          ++ "&redirect_uri=" ++ redirect_uri ++ "&scope=user-top-read").
  split; [reflexivity|].
  rewrite split_on_length, !count_char_app. cbn. lia.
Qed.

(** The two steps of the exchange agree on who asks and where the answer
    goes: the [client_id] and [redirect_uri] sent in the token POST of the
    callback are the values written into the authorization URL. *)
Lemma token_request_repeats_the_authorization env code :
  exists client_id redirect_uri,
    dict_lookup "client_id" (rq_payload (token_request env code))
    = Some client_id /\
    dict_lookup "redirect_uri" (rq_payload (token_request env code))
    = Some redirect_uri /\
    spotify_auth env =
      [("auth_url",
        PStr ("https://accounts.spotify.com/authorize?response_type=code&client_id="
              ++ fstr env client_id ++ "&redirect_uri=" ++ fstr env redirect_uri
              ++ "&scope=user-top-read"))].
Proof.
  exists (SPOTIFY_CLIENT_ID env), (SPOTIFY_REDIRECT_URI env).
  repeat split; reflexivity.
Qed.

(** ** Invariants of the three function views *)

Lemma wait_for_token_left_populated env timeout start fuel :
  forall s s',
    wait_for_token env fuel timeout start s = (Ret None, s') ->
    spotify_tokens s' <> [].
Proof.
  induction fuel as [|fuel IH]; intros s s'; [discriminate|].
  rewrite wait_for_token_step.
  destruct (spotify_tokens s) eqn:Ht.
  - cbv zeta. destruct (negb _); [discriminate|]. apply IH.
  - intros [= <-]. rewrite Ht. discriminate.
Qed.

(** On a well-formed store [get_spotify_token] never raises: the access
    token it reads is there. *)
Lemma get_spotify_token_never_raises env fuel s e :
  store_ok (spotify_tokens s) ->
  fst (get_spotify_token env fuel s) <> Raise e.
Proof.
  intros Hok. rewrite get_spotify_token_run.
  destruct (spotify_tokens s) eqn:Ht.
  - cbv zeta.
    match goal with
    | |- context [wait_for_token env fuel 120 ?c ?s1] =>
        pose proof (wait_for_token_frame env 120 c fuel s1) as (_ & Hok1 & _);
        pose proof (wait_for_token_left_populated env 120 c fuel s1) as Hpop;
        destruct (wait_for_token env fuel 120 c s1) as [[[r|]| |] s'] eqn:Hw
    end; cbn [fst snd] in *.
    + discriminate.
    + rewrite stored_access_token_run. cbn [fst].
      destruct (Hok1 ltac:(left; reflexivity)) as [Hnil|(a & Ha)].
      * exfalso. exact (Hpop s' eq_refl Hnil).
      * rewrite Ha. discriminate.
    + exfalso. revert Hw. clear. revert s'.
      match goal with
      | |- forall s', wait_for_token env fuel ?t ?c ?s1 = _ -> _ =>
          generalize s1; generalize c
      end.
      induction fuel as [|fuel IH]; intros c s1 s'; [discriminate|].
      rewrite wait_for_token_step.
      destruct (spotify_tokens s1); [|discriminate].
      cbv zeta. destruct (negb _); [discriminate|]. apply IH.
    + discriminate.
  - rewrite stored_access_token_run. cbn [fst].
    destruct Hok as [Hnil|(a & Ha)]; [congruence|].
    rewrite <- Ht in Ha. rewrite Ha. discriminate.
Qed.

(** Past the token, [add_preferences] and [get_user_info] only send
    requests: they leave the store, the clock and the sleep count as
    [get_spotify_token] left them. *)
Lemma add_preferences_after_token env fuel request user_id track artist s :
  let s0 := snd (get_spotify_token env fuel s) in
  let s' := snd (add_preferences env fuel request user_id track artist s) in
  s' = s \/
  (spotify_tokens s' = spotify_tokens s0 /\
   clock s' = clock s0 /\ sleeps s' = sleeps s0 /\
   exists rest, log s' = (log s0 ++ rest)%list /\ Forall is_http_event rest).
Proof.
  cbv zeta. rewrite add_preferences_run, add_preferences_object_run.
  destruct (users s !! user_id) as [user|]; [|left; reflexivity].
  right.
  destruct (get_spotify_token env fuel s) as [[tok| |] s0]; cbn [snd];
    try (repeat split; try reflexivity; exists []; rewrite app_nil_r;
         split; [reflexivity|constructor]).
  pose proof (get_track_info_state env tok track artist s0) as Hs1.
  destruct (get_track_info env tok track artist s0) as [[ti| |] s1];
    cbn [snd] in *; subst s1.
  - destruct (append (preferences user) _) as [p| |]; cbn [preferences];
      [destruct (json_serializable p)| |]; cbn;
      (repeat split; try reflexivity; eexists; split; [reflexivity|];
       constructor; [exact I|constructor]).
  - cbn. repeat split; try reflexivity. eexists. split; [reflexivity|].
    constructor; [exact I|constructor].
  - cbn. repeat split; try reflexivity. eexists. split; [reflexivity|].
    constructor; [exact I|constructor].
Qed.

Lemma get_user_info_after_token env fuel request s :
  let s0 := snd (get_spotify_token env fuel s) in
  let s' := snd (get_user_info env fuel request s) in
  spotify_tokens s' = spotify_tokens s0 /\
  users s' = users s0 /\
  clock s' = clock s0 /\ sleeps s' = sleeps s0 /\
  exists rest, log s' = (log s0 ++ rest)%list /\ Forall is_http_event rest.
Proof.
  cbv zeta. rewrite get_user_info_run.
  destruct (get_spotify_token env fuel s) as [[tok| |] s0]; cbn [snd];
    try (repeat split; try reflexivity; exists []; rewrite app_nil_r;
         split; [reflexivity|constructor]).
  pose proof (get_top_tracks_state env tok 10 "medium_term" s0) as Hs1.
  destruct (get_top_tracks env tok 10 "medium_term" s0) as [[tt| |] s1];
    cbn [snd] in *; subst s1;
    try (cbn; repeat split; try reflexivity; eexists; split; [reflexivity|];
         constructor; [exact I|constructor]).
  match goal with
  | |- context [get_top_artists env ?t ?l ?r ?s1] =>
      pose proof (get_top_artists_state env t l r s1) as Hs2;
      destruct (get_top_artists env t l r s1) as [[ta| |] s2]
  end; cbn [snd] in *; subst s2; cbn;
    (repeat split; try reflexivity; eexists;
     split; [rewrite <- app_assoc; reflexivity|];
     constructor; [exact I|constructor; [exact I|constructor]]).
Qed.

Lemma user_grows_refl u : user_grows u u.
Proof.
  split; [reflexivity|]. split; [reflexivity|].
  destruct (preferences u) eqn:E; try reflexivity.
  exists []. rewrite app_nil_r. reflexivity.
Qed.

Lemma user_grows_trans u u' u'' :
  user_grows u u' -> user_grows u' u'' -> user_grows u u''.
Proof.
  intros (Hn & He & Hp) (Hn' & He' & Hp').
  split; [congruence|]. split; [congruence|].
  destruct (preferences u) as [| | | |l| |];
    try (rewrite Hp in Hp'; exact Hp').
  destruct Hp as (added & Hp). rewrite Hp in Hp'.
  destruct Hp' as (added' & Hp'). exists (added ++ added')%list.
  rewrite Hp', <- app_assoc. reflexivity.
Qed.

Lemma table_grows_refl t : table_grows t t.
Proof.
  intros user_id. destruct (t !! user_id); [apply user_grows_refl|exact I].
Qed.

Lemma table_grows_trans t t' t'' :
  table_grows t t' -> table_grows t' t'' -> table_grows t t''.
Proof.
  intros H H' user_id. specialize (H user_id). specialize (H' user_id).
  destruct (t !! user_id), (t' !! user_id), (t'' !! user_id);
    try contradiction; try exact I.
  eapply user_grows_trans; eassumption.
Qed.

Lemma add_preferences_table_grows env fuel request user_id track artist s :
  table_grows (users s)
              (users (snd (add_preferences env fuel request user_id track
                                           artist s))).
Proof.
  rewrite add_preferences_run.
  pose proof (add_preferences_object_users env fuel user_id track artist s)
    as Hframe. revert Hframe.
  rewrite add_preferences_object_run.
  destruct (users s !! user_id) as [user|] eqn:Huser;
    [|intros _; apply table_grows_refl].
  destruct (get_spotify_token env fuel s) as [[tok| |] s0];
    try (cbn; intros ->; apply table_grows_refl).
  destruct (get_track_info env tok track artist s0) as [[ti| |] s1];
    try (cbn; intros ->; apply table_grows_refl).
  destruct (preferences user) as [| | | |l| |] eqn:Hprefs;
    try (cbn; intros ->; apply table_grows_refl).
  cbn [append snd preferences]. intros Hframe.
  destruct (json_serializable _);
    [|cbn; rewrite Hframe; apply table_grows_refl].
  cbn [snd users]. rewrite Hframe. intros other.
  destruct (decide (other = user_id)) as [->|Hne].
  - rewrite Huser, lookup_insert_eq.
    split; [reflexivity|]. split; [reflexivity|].
    rewrite Hprefs. eexists. reflexivity.
  - rewrite lookup_insert_ne by congruence.
    destruct (users s !! other); [apply user_grows_refl|exact I].
Qed.

Lemma run_call_table_grows env fuel c s :
  table_grows (users s) (users (snd (run_call env fuel c s))).
Proof.
  destruct c as [request|request user_id track artist|request]; cbn [run_call].
  - destruct (callback_frame env request s) as (-> & _).
    apply table_grows_refl.
  - apply add_preferences_table_grows.
  - destruct (get_user_info_after_token env fuel request s) as (_ & -> & _).
    destruct (get_spotify_token_frame env fuel s) as (-> & _).
    apply table_grows_refl.
Qed.

Lemma run_call_store_ok env fuel c s :
  store_ok (spotify_tokens s) ->
  store_ok (spotify_tokens (snd (run_call env fuel c s))).
Proof.
  intros Hok.
  destruct (get_spotify_token_frame env fuel s) as (_ & Hok0 & _).
  destruct c as [request|request user_id track artist|request]; cbn [run_call].
  - apply callback_store_ok. exact Hok.
  - destruct (add_preferences_after_token env fuel request user_id track
                artist s) as [->|(-> & _)]; auto.
  - destruct (get_user_info_after_token env fuel request s) as (-> & _). auto.
Qed.

Lemma callback_keeps_populated env request s :
  spotify_tokens s <> [] ->
  spotify_tokens (snd (callback env request s)) <> [].
Proof.
  intros Hpop. rewrite callback_run. cbv zeta.
  destruct (status_code _ =? 200); [|exact Hpop].
  destruct (response_json _) as [td| |]; try exact Hpop.
  destruct (and_then (getitem td "access_token") _) as [tokens| |] eqn:E;
    try exact Hpop.
  cbn. destruct (getitem td "access_token"); cbn in E; try discriminate.
  destruct (get_method td "refresh_token"); cbn in E; try discriminate.
  destruct (getitem td "expires_in"); cbn in E; try discriminate.
  injection E as <-. discriminate.
Qed.

(** With a populated store a call only sends requests. *)
Lemma run_call_logged_in env fuel c s :
  spotify_tokens s <> [] ->
  let s' := snd (run_call env fuel c s) in
  spotify_tokens s' <> [] /\
  clock s' = clock s /\ sleeps s' = sleeps s /\
  exists rest, log s' = (log s ++ rest)%list /\ Forall is_http_event rest.
Proof.
  intros Hpop. cbv zeta.
  assert (Hs0 : snd (get_spotify_token env fuel s) = s).
  { destruct (get_spotify_token_frame env fuel s) as (_ & _ & H).
    destruct (spotify_tokens s); [congruence|exact H]. }
  destruct c as [request|request user_id track artist|request]; cbn [run_call].
  - split; [apply callback_keeps_populated; exact Hpop|].
    destruct (callback_frame env request s) as (_ & -> & -> & ->).
    split; [reflexivity|]. split; [reflexivity|].
    eexists. split; [reflexivity|]. constructor; [exact I|constructor].
  - destruct (add_preferences_after_token env fuel request user_id track
                artist s) as [->|H].
    + split; [exact Hpop|]. split; [reflexivity|]. split; [reflexivity|].
      exists []. rewrite app_nil_r. split; [reflexivity|constructor].
    + rewrite Hs0 in H. destruct H as (-> & -> & -> & Hlog).
      split; [exact Hpop|]. split; [reflexivity|]. split; [reflexivity|].
      exact Hlog.
  - pose proof (get_user_info_after_token env fuel request s) as H.
    cbv zeta in H. rewrite Hs0 in H. destruct H as (-> & _ & -> & -> & Hlog).
    split; [exact Hpop|]. split; [reflexivity|]. split; [reflexivity|].
    exact Hlog.
Qed.

(** ** Calls one after the other *)

Lemma run_calls_store env fuel calls :
  forall s,
    store_ok (spotify_tokens s) ->
    store_ok (spotify_tokens (run_calls env fuel calls s)) /\
    (spotify_tokens s <> [] ->
     spotify_tokens (run_calls env fuel calls s) <> []).
Proof.
  induction calls as [|c calls IH]; intros s Hok; cbn [run_calls].
  - split; [exact Hok|]. intros H. exact H.
  - destruct (IH _ (run_call_store_ok env fuel c s Hok)) as (Hok' & Hpop').
    split; [exact Hok'|]. intros Hpop. apply Hpop'.
    exact (proj1 (run_call_logged_in env fuel c s Hpop)).
Qed.

(** X14.  Whatever calls of the three views are made, in whatever order,
    the token store stays as [get_spotify_token] needs it: it is empty or
    holds an access token, once filled it is never emptied, and reading the
    stored token never raises. *)
Theorem token_store_stays_well_formed env fuel calls s :
  store_ok (spotify_tokens s) ->
  let s' := run_calls env fuel calls s in
  store_ok (spotify_tokens s') /\
  (spotify_tokens s <> [] -> spotify_tokens s' <> []) /\
  (forall fuel' e, fst (get_spotify_token env fuel' s') <> Raise e).
Proof.
  intros Hok s'.
  destruct (run_calls_store env fuel calls s Hok) as (Hok' & Hpop').
  split; [exact Hok'|]. split; [exact Hpop'|].
  intros fuel' e.
  exact (get_spotify_token_never_raises env fuel' s' e Hok').
Qed.

Lemma token_store_stays_well_formed_witness :
  let s' := run_calls Sample.spotify 122
              [Call_callback Sample.authorized;
               Call_add_preferences Sample.authorized 1 "Yesterday"
                                    "The Beatles";
               Call_get_user_info Sample.authorized]
              Sample.fresh in
  store_ok (spotify_tokens s') /\
  fst (get_spotify_token Sample.spotify 0 s') <> Raise KeyError.
Proof.
  intros s'.
  destruct (token_store_stays_well_formed Sample.spotify 122
              [Call_callback Sample.authorized;
               Call_add_preferences Sample.authorized 1 "Yesterday"
                                    "The Beatles";
               Call_get_user_info Sample.authorized]
              Sample.fresh) as (Hok & _ & Hnever).
  - left. reflexivity.
  - split; [exact Hok|apply Hnever].
Defined.

(** X15.  Once a token is stored the three views never open the browser,
    read the clock or sleep again: whatever calls follow, all they add to
    the log are requests to the third party. *)
Theorem logged_in_service_only_sends_requests env fuel calls s :
  spotify_tokens s <> [] ->
  let s' := run_calls env fuel calls s in
  clock s' = clock s /\ sleeps s' = sleeps s /\
  exists rest, log s' = (log s ++ rest)%list /\ Forall is_http_event rest.
Proof.
  revert s. induction calls as [|c calls IH]; intros s Hpop; cbn [run_calls].
  - split; [reflexivity|]. split; [reflexivity|].
    exists []. rewrite app_nil_r. split; [reflexivity|constructor].
  - destruct (run_call_logged_in env fuel c s Hpop)
      as (Hpop1 & Hc & Hs & rest & Hl & Hrest).
    destruct (IH _ Hpop1) as (Hc' & Hs' & rest' & Hl' & Hrest').
    split; [congruence|]. split; [congruence|].
    exists (rest ++ rest')%list. split.
    + rewrite Hl', Hl, <- app_assoc. reflexivity.
    + apply Forall_app_2; assumption.
Qed.

Lemma logged_in_service_only_sends_requests_witness :
  let s' := run_calls Sample.spotify_down 122
              [Call_add_preferences Sample.authorized 1 "Yesterday"
                                    "The Beatles";
               Call_get_user_info Sample.authorized]
              Sample.logged_in in
  clock s' = clock Sample.logged_in /\ sleeps s' = 0%nat.
Proof.
  intros s'.
  destruct (logged_in_service_only_sends_requests Sample.spotify_down 122
              [Call_add_preferences Sample.authorized 1 "Yesterday"
                                    "The Beatles";
               Call_get_user_info Sample.authorized]
              Sample.logged_in) as (Hc & Hs & _).
  - discriminate.
  - split; [exact Hc|exact Hs].
Defined.

(** X16.  The three function views never create, delete or rename a user
    and never take an entry away: whatever calls are made, every row is
    still there with its name and email, a preferences list is the former
    list with entries added at its end, and preferences that are not a
    list (null among them) stay what they are. *)
Theorem function_views_keep_the_users env fuel calls s :
  table_grows (users s) (users (run_calls env fuel calls s)).
Proof.
  revert s. induction calls as [|c calls IH]; intros s; cbn [run_calls].
  - apply table_grows_refl.
  - eapply table_grows_trans; [apply run_call_table_grows|apply IH].
Qed.

(** ** [urls.py]: which paths reach which view *)

Lemma compiled_urlpatterns_eq : compiled_urlpatterns = compile urlpatterns.
Proof. vm_compute. reflexivity. Qed.

Lemma join_with_cons sep c piece pieces :
  join_with sep (String c piece :: pieces)
  = String c (join_with sep (piece :: pieces)).
Proof. destruct pieces; reflexivity. Qed.

Lemma split_on_join sep s : join_with sep (split_on sep s) = s.
Proof.
  induction s as [|c s IH]; [reflexivity|].
  cbn [split_on]. destruct (Ascii.eqb_spec c sep) as [->|_].
  - destruct (split_on sep s) as [|piece pieces] eqn:E.
    + pose proof (split_on_length sep s) as H. rewrite E in H. discriminate.
    + change (join_with sep ("" :: piece :: pieces))
        with (String sep (join_with sep (piece :: pieces))).
      rewrite IH. reflexivity.
  - destruct (split_on sep s) as [|piece pieces] eqn:E.
    + pose proof (split_on_length sep s) as H. rewrite E in H. discriminate.
    + rewrite join_with_cons, IH. reflexivity.
Qed.

Lemma split_on_last sep a :
  occurs sep a = false -> split_on sep a = [a].
Proof.
  induction a as [|c a IH]; cbn; [reflexivity|].
  intros H. apply orb_false_iff in H as [Hc Ha].
  rewrite Hc, (IH Ha). reflexivity.
Qed.

Lemma digit_value_range c d : digit_value c = Some d -> 0 <= d < 10.
Proof.
  unfold digit_value. cbv zeta.
  destruct (_ && _) eqn:E; [|discriminate].
  intros [= <-]. apply andb_true_iff in E as [H1 H2]. lia.
Qed.

Lemma digit_value_not_slash c d :
  digit_value c = Some d -> Ascii.eqb c "/" = false.
Proof.
  destruct (Ascii.eqb_spec c "/") as [->|]; [|reflexivity].
  vm_compute. discriminate.
Qed.

Lemma digit_value_digit_char d :
  0 <= d < 10 -> digit_value (digit_char d) = Some d.
Proof.
  intros H.
  assert (d = 0 \/ d = 1 \/ d = 2 \/ d = 3 \/ d = 4 \/ d = 5 \/ d = 6 \/
          d = 7 \/ d = 8 \/ d = 9) as Hd by lia.
  repeat (destruct Hd as [->|Hd]; [reflexivity|]). subst d. reflexivity.
Qed.

Lemma int_of_digits_nonneg s :
  forall acc n, 0 <= acc -> int_of_digits acc s = Some n -> 0 <= n.
Proof.
  induction s as [|c s IH]; cbn [int_of_digits]; intros acc n Hacc.
  - intros [= <-]. exact Hacc.
  - destruct (digit_value c) as [d|] eqn:Hd; [|discriminate].
    apply digit_value_range in Hd. apply IH. lia.
Qed.

Lemma int_of_digits_no_slash s :
  forall acc n, int_of_digits acc s = Some n -> occurs "/" s = false.
Proof.
  induction s as [|c s IH]; cbn [int_of_digits occurs]; intros acc n.
  - reflexivity.
  - destruct (digit_value c) as [d|] eqn:Hd; [|discriminate].
    intros H. rewrite (digit_value_not_slash _ _ Hd), (IH _ _ H). reflexivity.
Qed.

Lemma int_of_digits_app a b :
  forall acc,
    int_of_digits acc (a ++ b)
    = match int_of_digits acc a with
      | Some v => int_of_digits v b
      | None => None
      end.
Proof.
  induction a as [|c a IH]; intros acc; [reflexivity|].
  change (String c a ++ b) with (String c (a ++ b)).
  cbn [int_of_digits]. destruct (digit_value c); [apply IH|reflexivity].
Qed.

Lemma string_app_assoc (a b c : string) : (a ++ b) ++ c = a ++ (b ++ c).
Proof.
  induction a as [|x a IH]; [reflexivity|].
  change ((String x a ++ b) ++ c) with (String x ((a ++ b) ++ c)).
  rewrite IH. reflexivity.
Qed.

Lemma decimal_digits_app fuel :
  forall n acc, decimal_digits fuel n acc = decimal_digits fuel n "" ++ acc.
Proof.
  induction fuel as [|fuel IH]; intros n acc; cbn [decimal_digits];
    [reflexivity|].
  cbv zeta. destruct (n <? 10); [reflexivity|].
  rewrite IH, (IH _ (String _ "")), string_app_assoc. reflexivity.
Qed.

Lemma int_of_decimal_digits fuel :
  forall n, 0 <= n -> (Z.to_nat n < fuel)%nat ->
    int_of_digits 0 (decimal_digits fuel n "") = Some n.
Proof.
  induction fuel as [|fuel IH]; intros n Hn Hfuel; [lia|].
  cbn [decimal_digits]. cbv zeta. destruct (Z.ltb_spec n 10) as [Hlt|Hge].
  - cbn [int_of_digits]. rewrite Z.mod_small by lia.
    rewrite digit_value_digit_char by lia. f_equal; lia.
  - rewrite decimal_digits_app, int_of_digits_app.
    rewrite IH.
    + cbn [int_of_digits].
      rewrite digit_value_digit_char by (apply Z.mod_pos_bound; lia).
      pose proof (Z.div_mod n 10). f_equal; lia.
    + apply Z.div_pos; lia.
    + assert (n / 10 < n) by (apply Z.div_lt; lia).
      assert (0 <= n / 10) by (apply Z.div_pos; lia). lia.
Qed.

Lemma decimal_nonempty n : decimal n <> "".
Proof.
  unfold decimal. cbn [decimal_digits]. cbv zeta.
  destruct (n <? 10); [discriminate|].
  rewrite decimal_digits_app.
  destruct (decimal_digits _ _ ""); discriminate.
Qed.

Lemma int_converter_decimal n :
  0 <= n ->
  Z.of_nat (String.length (decimal n)) <= int_max_str_digits ->
  int_converter (decimal n) = Some n.
Proof.
  intros Hn Hlen. unfold int_converter.
  apply Z.leb_le in Hlen. rewrite Hlen.
  destruct (decimal n) eqn:E; [exfalso; exact (decimal_nonempty n E)|].
  rewrite <- E. unfold decimal. apply int_of_decimal_digits; lia.
Qed.

Lemma int_converter_inv digits n :
  int_converter digits = Some n ->
  digits <> "" /\ int_of_digits 0 digits = Some n /\ 0 <= n /\
  occurs "/" digits = false.
Proof.
  unfold int_converter. destruct digits as [|c digits]; [discriminate|].
  destruct (_ <=? _); [|discriminate].
  intros H. split; [discriminate|]. split; [exact H|]. split.
  - eapply int_of_digits_nonneg; [|exact H]. lia.
  - eapply int_of_digits_no_slash. exact H.
Qed.

Lemma str_converter_iff text v :
  str_converter text = Some v
  <-> v = text /\ text <> "" /\ occurs "/" text = false.
Proof.
  unfold str_converter. destruct text as [|c text].
  - split; [discriminate|]. intros (_ & H & _). congruence.
  - destruct (occurs "/" (String c text)).
    + split; [discriminate|]. intros (_ & _ & H). discriminate.
    + split.
      * intros [= <-]. split; [reflexivity|]. split; [discriminate|reflexivity].
      * intros (-> & _). reflexivity.
Qed.

Lemma split_on_add_preferences_path digits track artist :
  occurs "/" digits = false -> occurs "/" track = false ->
  occurs "/" artist = false ->
  split_on "/" (add_preferences_path digits track artist)
  = ["users"; "add-preferences"; digits; track; artist; ""].
Proof.
  intros Hd Ht Ha. unfold add_preferences_path.
  change ("users/add-preferences/" ++ digits ++ "/" ++ track ++ "/"
          ++ artist ++ "/")
    with ("users" ++ String "/" ("add-preferences" ++ String "/"
            (digits ++ String "/" (track ++ String "/"
               (artist ++ String "/" ""))))).
  rewrite !split_on_app by (assumption || reflexivity). reflexivity.
Qed.

(** What the first route matches, and with which arguments. *)
Lemma resolve_add_preferences_path digits user_id track artist :
  int_converter digits = Some user_id ->
  track <> "" -> occurs "/" track = false ->
  artist <> "" -> occurs "/" artist = false ->
  resolve compiled_urlpatterns (add_preferences_path digits track artist)
  = Some (view_add_preferences,
          [("user_id", ArgInt user_id); ("track", ArgStr track);
           ("artist", ArgStr artist)]).
Proof.
  intros Hd Ht Hts Ha Has.
  pose proof (proj2 (str_converter_iff track track)
                (conj eq_refl (conj Ht Hts))) as Hct.
  pose proof (proj2 (str_converter_iff artist artist)
                (conj eq_refl (conj Ha Has))) as Hca.
  destruct (int_converter_inv _ _ Hd) as (_ & _ & _ & Hds).
  unfold compiled_urlpatterns. cbn [resolve].
  rewrite split_on_add_preferences_path by assumption.
  cbn [match_parts match_part]. rewrite Hd, Hct, Hca.
  reflexivity.
Qed.

(** Every path the three routes match. *)
Lemma resolve_inv path view kwargs :
  resolve compiled_urlpatterns path = Some (view, kwargs) ->
  match view with
  | view_add_preferences =>
      exists digits user_id track artist,
        path = add_preferences_path digits track artist /\
        int_converter digits = Some user_id /\
        str_converter track = Some track /\
        str_converter artist = Some artist /\
        kwargs = [("user_id", ArgInt user_id); ("track", ArgStr track);
                  ("artist", ArgStr artist)]
  | view_callback => path = "callback/" /\ kwargs = []
  | view_get_user_info => path = "users/get-user-info/" /\ kwargs = []
  end.
Proof.
  pose proof (split_on_join "/" path) as Hjoin. revert Hjoin.
  unfold compiled_urlpatterns. cbn [resolve].
  generalize (split_on "/" path) as pieces. intros pieces.
  destruct pieces as [|p1 [|p2 [|p3 [|p4 [|p5 [|p6 [|p7 pieces]]]]]]];
    cbn [match_parts match_part];
    repeat match goal with
      | |- context [String.eqb ?a ?b] =>
          let E := fresh "E" in
          destruct (String.eqb_spec a b) as [E|?];
          [first [discriminate E|subst b]|]
      | |- context [int_converter ?a] =>
          let n := fresh "n" in let E := fresh "E" in
          destruct (int_converter a) as [n|] eqn:E
      | |- context [str_converter ?a] =>
          let v := fresh "v" in let E := fresh "E" in
          destruct (str_converter a) as [v|] eqn:E
      end;
    cbn [app]; intros <-; try discriminate; intros [= <- <-];
    try (split; reflexivity).
  match goal with
  | Hi : int_converter p3 = Some ?user_id,
    Ht : str_converter p4 = Some ?track,
    Ha : str_converter p5 = Some ?artist |- _ =>
      exists p3, user_id, p4, p5;
      apply str_converter_iff in Ht as (-> & Ht);
      apply str_converter_iff in Ha as (-> & Ha);
      split; [reflexivity|]; split; [exact Hi|];
      split; [apply str_converter_iff; split; [reflexivity|exact Ht]|];
      split; [apply str_converter_iff; split; [reflexivity|exact Ha]|];
      reflexivity
  end.
Qed.

(** X17.  The add-preferences path, written with the user id in decimal
    (not negative, of no more digits than [int] converts) and a track and
    an artist that are not empty and hold no slash, resolves to
    [add_preferences] with exactly these three arguments; whatever the
    router matches, it is not asked. *)
Theorem add_preferences_path_resolves user_id track artist :
  0 <= user_id ->
  Z.of_nat (String.length (decimal user_id)) <= int_max_str_digits ->
  track <> "" -> occurs "/" track = false ->
  artist <> "" -> occurs "/" artist = false ->
  let path := add_preferences_path (decimal user_id) track artist in
  let kwargs := [("user_id", ArgInt user_id); ("track", ArgStr track);
                 ("artist", ArgStr artist)] in
  resolve compiled_urlpatterns path = Some (view_add_preferences, kwargs) /\
  (forall (R : Type) (router_urls : string -> option R),
     resolve_urls router_urls path
     = Some (inl (view_add_preferences, kwargs))) /\
  (forall request,
     bind_view view_add_preferences kwargs request
     = Some (Call_add_preferences request user_id track artist)).
Proof.
  intros Hid Hlen Ht Hts Ha Has path kwargs.
  pose proof (resolve_add_preferences_path (decimal user_id) user_id track
                artist (int_converter_decimal user_id Hid Hlen) Ht Hts Ha Has)
    as Hres.
  fold path in Hres. fold kwargs in Hres.
  split; [exact Hres|]. split.
  - intros R router_urls. unfold resolve_urls. rewrite Hres. reflexivity.
  - intros request. reflexivity.
Qed.

Lemma add_preferences_path_resolves_witness :
  resolve compiled_urlpatterns
    (add_preferences_path (decimal 42) "Yesterday" "The Beatles")
  = Some (view_add_preferences,
          [("user_id", ArgInt 42); ("track", ArgStr "Yesterday");
           ("artist", ArgStr "The Beatles")]).
Proof.
  apply (add_preferences_path_resolves 42 "Yesterday" "The Beatles").
  - lia.
  - vm_compute. discriminate.
  - discriminate.
  - reflexivity.
  - discriminate.
  - reflexivity.
Defined.

(** X18.  Only such paths reach [add_preferences]: when the resolver picks
    it, the path is the add-preferences path for some digits, track and
    artist; the user id is the number the digits write (leading zeros
    allowed) and is never negative; track and artist are not empty and
    hold no slash; and the view is handed these three arguments. *)
Theorem add_preferences_route_inversion path kwargs :
  resolve compiled_urlpatterns path = Some (view_add_preferences, kwargs) ->
  exists digits user_id track artist,
    path = add_preferences_path digits track artist /\
    digits <> "" /\ int_of_digits 0 digits = Some user_id /\ 0 <= user_id /\
    track <> "" /\ occurs "/" track = false /\
    artist <> "" /\ occurs "/" artist = false /\
    kwargs = [("user_id", ArgInt user_id); ("track", ArgStr track);
              ("artist", ArgStr artist)] /\
    forall request,
      bind_view view_add_preferences kwargs request
      = Some (Call_add_preferences request user_id track artist).
Proof.
  intros H.
  destruct (resolve_inv _ _ _ H)
    as (digits & user_id & track & artist & -> & Hd & Ht & Ha & ->).
  destruct (int_converter_inv _ _ Hd) as (Hne & Hv & Hpos & _).
  apply str_converter_iff in Ht as (_ & Ht & Hts).
  apply str_converter_iff in Ha as (_ & Ha & Has).
  exists digits, user_id, track, artist.
  repeat (split; [assumption || reflexivity|]).
  intros request. reflexivity.
Qed.

Lemma add_preferences_route_inversion_witness :
  exists digits user_id track artist,
    "users/add-preferences/007/Yesterday/The Beatles/"
    = add_preferences_path digits track artist /\
    int_of_digits 0 digits = Some user_id /\ 0 <= user_id.
Proof.
  destruct (add_preferences_route_inversion
              "users/add-preferences/007/Yesterday/The Beatles/"
              [("user_id", ArgInt 7); ("track", ArgStr "Yesterday");
               ("artist", ArgStr "The Beatles")])
    as (digits & user_id & track & artist & Hp & _ & Hv & Hpos & _).
  - vm_compute. reflexivity.
  - exists digits, user_id, track, artist.
    split; [exact Hp|]. split; [exact Hv|exact Hpos].
Defined.

(** X19.  The two fixed routes are exact: the resolver picks [callback]
    for the path ["callback/"] and for no other, [get_user_info] for
    ["users/get-user-info/"] and for no other (the trailing slash
    included), and hands neither any argument. *)
Theorem fixed_routes_are_exact path kwargs :
  (resolve compiled_urlpatterns path = Some (view_callback, kwargs)
   <-> path = "callback/" /\ kwargs = []) /\
  (resolve compiled_urlpatterns path = Some (view_get_user_info, kwargs)
   <-> path = "users/get-user-info/" /\ kwargs = []).
Proof.
  split; split.
  - intros H. exact (resolve_inv _ _ _ H).
  - intros (-> & ->). vm_compute. reflexivity.
  - intros H. exact (resolve_inv _ _ _ H).
  - intros (-> & ->). vm_compute. reflexivity.
Qed.

Lemma add_preferences_other_rows env fuel request user_id track artist s other :
  other <> user_id ->
  users (snd (add_preferences env fuel request user_id track artist s)) !! other
  = users s !! other.
Proof.
  intros Hother. rewrite add_preferences_run.
  pose proof (add_preferences_object_users env fuel user_id track artist s)
    as Hframe. revert Hframe.
  destruct (add_preferences_object env fuel user_id track artist s)
    as [[user| |] s1]; cbn [snd]; try (intros ->; reflexivity).
  intros Hframe.
  destruct (json_serializable (preferences user)); cbn [snd users];
    rewrite Hframe; [|reflexivity].
  apply lookup_insert_ne. congruence.
Qed.

(** X20.  Of the three function views only [add_preferences] changes the
    users, and only the row of the user id it is called with: [callback]
    and [get_user_info] leave the whole table as it was, [add_preferences]
    every other row, whether the call returns or raises and whatever
    callbacks are served while it waits for a token. *)
Theorem only_add_preferences_changes_the_users env fuel c s :
  let s' := snd (run_call env fuel c s) in
  match c with
  | Call_add_preferences _ user_id _ _ =>
      forall other, other <> user_id -> users s' !! other = users s !! other
  | Call_callback _ | Call_get_user_info _ => users s' = users s
  end.
Proof.
  destruct c as [request|request user_id track artist|request];
    cbn [run_call]; cbv zeta.
  - exact (proj1 (callback_frame env request s)).
  - intros other Hother. apply add_preferences_other_rows. exact Hother.
  - destruct (get_user_info_after_token env fuel request s) as (_ & Hu & _).
    destruct (get_spotify_token_frame env fuel s) as (Hu0 & _).
    congruence.
Qed.
